(** * Selenium Grid exporter: the scrape / publish cycle

    A shallow embedding of the exporter's collector ([NewExporter], [fetch],
    [scrape], [Collect]) and the properties of the published metric state
    that follow from it.

    Modelling choices, all read off the Go source:
    - a [prometheus.Gauge] is the [float64] it holds ([Set] stores a value);
    - a [prometheus.GaugeVec] is a finite map from the list of label values
      given to [WithLabelValues] to the value of the child gauge; [Reset]
      empties it.  [WithLabelValues] panics on a wrong number of label values
      or on a value that is not UTF-8: the collector always passes the right
      number, and strings decoded by [encoding/json] are valid UTF-8;
    - [float64] is the kernel's binary64 float type; the collector only stores
      such values, it never computes with them;
    - an [error] is its message; [nil] is [None];
    - the HTTP exchange of one [fetch] is an input ([Upstream]): which of the
      fallible library calls fails, or the response received;
    - [json.Unmarshal] is a parameter of the development: any function from
      the body and the zero-valued target to the target as filled and an
      optional error;
    - [logrus] calls append to a log carried next to the exporter;
    - a computation is the sequence of its atomic operations ([Prog]), run
      either by one caller ([run]) or by two callers under a schedule
      ([interleave]). *)

From Stdlib Require Import Floats ZArith.
From stdpp Require Import gmap strings list.

Open Scope string_scope.

(** ** Data model *)

Abbreviation float64 := PrimFloat.float (only parsing).
Abbreviation error := string (only parsing).
Abbreviation bytes := (list Byte.byte) (only parsing).

(** Label values, in the order of the vector's label names. *)
Abbreviation GaugeVec := (gmap (list string) float64) (only parsing).

Record Exporter := mkExporter {
  URI : string;
  up : float64;
  totalSlots : float64;
  maxSession : float64;
  sessionCount : float64;
  sessionQueueSize : float64;
  version : GaugeVec;
  nodeCount : float64;
  nodeStatus : GaugeVec;
  nodeMaxSession : GaugeVec;
  nodeSlotCount : GaugeVec;
  nodeSessionCount : GaugeVec;
  nodeVersion : GaugeVec
}.

Module HubResponseNode.
Record t := mk {
  Id : string;
  Uri : string;
  Status : string;
  MaxSession : float64;
  SlotCount : float64;
  SessionCount : float64;
  Version : string
}.
End HubResponseNode.

Module hubResponse.
Record Grid_t := mkGrid {
  TotalSlots : float64;
  MaxSession : float64;
  SessionCount : float64;
  SessionQueueSize : float64;
  NodeCount : float64;
  Version : string
  }.
Record NodesInfo_t := mkNodesInfo { Nodes : list HubResponseNode.t }.
Record Data_t := mkData { Grid : Grid_t; NodesInfo : NodesInfo_t }.
Record t := mk { Data : Data_t }.

(** [var hResponse hubResponse]: every field at its zero value. *)
Definition zero : t :=
  mk (mkData (mkGrid 0 0 0 0 0 "") (mkNodesInfo [])).
End hubResponse.

(** ** The HTTP exchange of one fetch *)

Module http.
Definition StatusOK : Z := 200.

Record Response := mkResponse {
  Status : string;             (* e.g. "503 Service Unavailable" *)
  StatusCode : Z;
  ReadAll : bytes * option error  (* what io.ReadAll(resp.Body) returns *)
}.
End http.

Inductive Upstream :=
  | NewRequestFails (err : error)     (* http.NewRequest returned err *)
  | DoFails (err : error)             (* client.Do returned err: transport, timeout *)
  | Responds (resp : http.Response).  (* client.Do returned a response *)

(** ** Logging and the state threaded through the collector *)

Inductive Level := InfoLevel | WarnLevel | ErrorLevel.

Record Entry := mkEntry { level : Level; message : string }.

Record State := mkState { exporter : Exporter; logged : list Entry }.

(** A computation of the collector is a sequence of atomic operations on the
    state shared by every caller of [Collect]: each call of a metric method
    ([Set], [Reset], [WithLabelValues(...).Set]) is one [Mutate], each read of
    the metrics by the exposition is one [Observe], each logrus call one
    [Emit].  The client library makes each of these atomic on its own (atomic
    stores, the vector's internal lock); nothing larger is atomic unless the
    program takes a lock itself, and this one takes none.  (The library
    performs [WithLabelValues(...).Set] as a lookup followed by a store; taking
    the pair as one operation only removes schedules.) *)
Inductive Prog (A : Type) : Type :=
  | Ret (a : A)
  | Mutate (f : Exporter → Exporter) (k : Prog A)
  | Observe (X : Type) (f : Exporter → X) (k : X → Prog A)
  | Emit (en : Entry) (k : Prog A).
Arguments Ret {A} _.
Arguments Mutate {A} _ _.
Arguments Observe {A X} _ _.
Arguments Emit {A} _ _.

Fixpoint bind {A B} (m : Prog A) (f : A → Prog B) : Prog B :=
  match m with
  | Ret a => f a
  | Mutate g k => Mutate g (bind k f)
  | Observe g k => Observe g (λ x, bind (k x) f)
  | Emit en k => Emit en (bind k f)
  end.

#[global] Instance Prog_ret : MRet Prog := λ A a, Ret a.
#[global] Instance Prog_bind : MBind Prog := λ A B f m, bind m f.

(** One caller at a time: the operations applied in program order. *)
Fixpoint run {A} (m : Prog A) (s : State) : A * State :=
  match m with
  | Ret a => (a, s)
  | Mutate g k => run k (mkState (g (exporter s)) (logged s))
  | Observe g k => run (k (g (exporter s))) s
  | Emit en k => run k (mkState (exporter s) (logged s ++ [en])%list)
  end.

Definition modify (f : Exporter → Exporter) : Prog unit := Mutate f (Ret tt).

Definition read {X} (f : Exporter → X) : Prog X := Observe f Ret.

Definition logrus_log (l : Level) (msg : string) : Prog unit :=
  Emit (mkEntry l msg) (Ret tt).

Definition logrus_Errorf := logrus_log ErrorLevel.
Definition logrus_Info := logrus_log InfoLevel.

(** [for _, x := range xs { body x }] *)
Fixpoint for_range {A} (xs : list A) (body : A → Prog unit) : Prog unit :=
  match xs with
  | [] => mret tt
  | x :: xs' => body x;; for_range xs' body
  end.

(** ** Fields of the exporter, as the collector addresses them *)

Record Field (A : Type) := mkField {
  get : Exporter → A;
  put : A → Exporter → Exporter
}.
Arguments get {A} _ _.
Arguments put {A} _ _ _.

Definition e_up : Field float64 := mkField _ up
  (λ v e, mkExporter (URI e) v (totalSlots e) (maxSession e) (sessionCount e)
    (sessionQueueSize e) (version e) (nodeCount e) (nodeStatus e)
    (nodeMaxSession e) (nodeSlotCount e) (nodeSessionCount e) (nodeVersion e)).
Definition e_totalSlots : Field float64 := mkField _ totalSlots
  (λ v e, mkExporter (URI e) (up e) v (maxSession e) (sessionCount e)
    (sessionQueueSize e) (version e) (nodeCount e) (nodeStatus e)
    (nodeMaxSession e) (nodeSlotCount e) (nodeSessionCount e) (nodeVersion e)).
Definition e_maxSession : Field float64 := mkField _ maxSession
  (λ v e, mkExporter (URI e) (up e) (totalSlots e) v (sessionCount e)
    (sessionQueueSize e) (version e) (nodeCount e) (nodeStatus e)
    (nodeMaxSession e) (nodeSlotCount e) (nodeSessionCount e) (nodeVersion e)).
Definition e_sessionCount : Field float64 := mkField _ sessionCount
  (λ v e, mkExporter (URI e) (up e) (totalSlots e) (maxSession e) v
    (sessionQueueSize e) (version e) (nodeCount e) (nodeStatus e)
    (nodeMaxSession e) (nodeSlotCount e) (nodeSessionCount e) (nodeVersion e)).
Definition e_sessionQueueSize : Field float64 := mkField _ sessionQueueSize
  (λ v e, mkExporter (URI e) (up e) (totalSlots e) (maxSession e) (sessionCount e)
    v (version e) (nodeCount e) (nodeStatus e)
    (nodeMaxSession e) (nodeSlotCount e) (nodeSessionCount e) (nodeVersion e)).
Definition e_version : Field GaugeVec := mkField _ version
  (λ v e, mkExporter (URI e) (up e) (totalSlots e) (maxSession e) (sessionCount e)
    (sessionQueueSize e) v (nodeCount e) (nodeStatus e)
    (nodeMaxSession e) (nodeSlotCount e) (nodeSessionCount e) (nodeVersion e)).
Definition e_nodeCount : Field float64 := mkField _ nodeCount
  (λ v e, mkExporter (URI e) (up e) (totalSlots e) (maxSession e) (sessionCount e)
    (sessionQueueSize e) (version e) v (nodeStatus e)
    (nodeMaxSession e) (nodeSlotCount e) (nodeSessionCount e) (nodeVersion e)).
Definition e_nodeStatus : Field GaugeVec := mkField _ nodeStatus
  (λ v e, mkExporter (URI e) (up e) (totalSlots e) (maxSession e) (sessionCount e)
    (sessionQueueSize e) (version e) (nodeCount e) v
    (nodeMaxSession e) (nodeSlotCount e) (nodeSessionCount e) (nodeVersion e)).
Definition e_nodeMaxSession : Field GaugeVec := mkField _ nodeMaxSession
  (λ v e, mkExporter (URI e) (up e) (totalSlots e) (maxSession e) (sessionCount e)
    (sessionQueueSize e) (version e) (nodeCount e) (nodeStatus e)
    v (nodeSlotCount e) (nodeSessionCount e) (nodeVersion e)).
Definition e_nodeSlotCount : Field GaugeVec := mkField _ nodeSlotCount
  (λ v e, mkExporter (URI e) (up e) (totalSlots e) (maxSession e) (sessionCount e)
    (sessionQueueSize e) (version e) (nodeCount e) (nodeStatus e)
    (nodeMaxSession e) v (nodeSessionCount e) (nodeVersion e)).
Definition e_nodeSessionCount : Field GaugeVec := mkField _ nodeSessionCount
  (λ v e, mkExporter (URI e) (up e) (totalSlots e) (maxSession e) (sessionCount e)
    (sessionQueueSize e) (version e) (nodeCount e) (nodeStatus e)
    (nodeMaxSession e) (nodeSlotCount e) v (nodeVersion e)).
Definition e_nodeVersion : Field GaugeVec := mkField _ nodeVersion
  (λ v e, mkExporter (URI e) (up e) (totalSlots e) (maxSession e) (sessionCount e)
    (sessionQueueSize e) (version e) (nodeCount e) (nodeStatus e)
    (nodeMaxSession e) (nodeSlotCount e) (nodeSessionCount e) v).

(** ** The metric operations the collector uses *)

(** [g.Set(v)] *)
Definition Gauge_Set (g : Field float64) (v : float64) : Exporter → Exporter :=
  put g v.

(** [vec.Reset()]: every child is deleted. *)
Definition GaugeVec_Reset (vec : Field GaugeVec) : Exporter → Exporter :=
  put vec ∅.

(** [vec.WithLabelValues(lvs...).Set(v)]: the child for [lvs] is created when
    absent, then set. *)
Definition GaugeVec_Set (vec : Field GaugeVec) (lvs : list string) (v : float64)
    : Exporter → Exporter :=
  λ e, put vec (<[lvs := v]> (get vec e)) e.

(** ** NewExporter *)

Definition NewExporter (uri : string) : Exporter :=
  mkExporter uri 0 0 0 0 0 ∅ 0 ∅ ∅ ∅ ∅ ∅.

(** ** fetch *)

Definition fetch (u : Upstream) : Prog (bytes * option error) :=
  match u with
  | NewRequestFails err =>
      logrus_Errorf ("Failed to create request: " ++ err);;
      mret ([], Some err)
  | DoFails err =>
      logrus_Errorf ("Failed to execute request: " ++ err);;
      mret ([], Some err)
  | Responds resp =>
      if bool_decide (http.StatusCode resp ≠ http.StatusOK) then
        logrus_Errorf ("Unexpected HTTP status: " ++ http.Status resp);;
        mret ([], Some ("unexpected HTTP status: " ++ http.Status resp))
      else
        let '(body, err) := http.ReadAll resp in
        match err with
        | Some err =>
            logrus_Errorf ("Failed to read response body: " ++ err);;
            mret ([], Some err)
        | None => mret (body, None)
        end
  end.

(** ** scrape and Collect *)

Definition nameSpace := "selenium".
Definition gridSubsystem := "grid".
Definition nodeSubsystem := "node".

(** [prometheus.BuildFQName], for three non-empty parts. *)
Definition BuildFQName (namespace subsystem name : string) : string :=
  namespace ++ "_" ++ subsystem ++ "_" ++ name.

(** What the exposition receives on the channel: the metric's name, its label
    values and the value read from it. *)
Record Metric := mkMetric {
  fqName : string;
  labelValues : list string;
  value : float64
}.

(** [ch <- g] *)
Definition send (name : string) (g : Field float64) : Prog (list Metric) :=
  read (λ e, [mkMetric name [] (get g e)]).

(** [vec.Collect(ch)]: one metric per child present at that moment (in the
    order of the map, which the library leaves unspecified). *)
Definition GaugeVec_Collect (name : string) (vec : Field GaugeVec) : Prog (list Metric) :=
  read (λ e, (λ kv, mkMetric name kv.1 kv.2) <$> map_to_list (get vec e)).

Section Collector.

(** [json.Unmarshal(body, &hResponse)]: the target as filled, and the error. *)
Variable json_Unmarshal : bytes → hubResponse.t → hubResponse.t * option error.

(** The five [Reset] calls on the node vectors, which the source writes out
    at each of its three places. *)
Definition clear_node_metrics : Prog unit :=
  modify (GaugeVec_Reset e_nodeStatus);;
  modify (GaugeVec_Reset e_nodeMaxSession);;
  modify (GaugeVec_Reset e_nodeSlotCount);;
  modify (GaugeVec_Reset e_nodeSessionCount);;
  modify (GaugeVec_Reset e_nodeVersion).

Definition scrape (u : Upstream) : Prog unit :=
  '(body, err) ← fetch u;
  match err with
  | Some err =>
      modify (Gauge_Set e_up 0);;
      logrus_Errorf ("Error scraping Selenium Grid: " ++ err);;
      clear_node_metrics
  | None =>
      modify (Gauge_Set e_up 1);;
      logrus_Info "Successfully scraped Selenium Grid";;
      let '(hResponse, err) := json_Unmarshal body hubResponse.zero in
      match err with
      | Some err =>
          logrus_Errorf ("Error decoding Selenium Grid response: " ++ err);;
          modify (Gauge_Set e_up 0);;
          clear_node_metrics
      | None =>
          let grid := hubResponse.Grid (hubResponse.Data hResponse) in
          modify (Gauge_Set e_totalSlots (hubResponse.TotalSlots grid));;
          modify (Gauge_Set e_maxSession (hubResponse.MaxSession grid));;
          modify (Gauge_Set e_sessionCount (hubResponse.SessionCount grid));;
          modify (Gauge_Set e_sessionQueueSize (hubResponse.SessionQueueSize grid));;
          modify (Gauge_Set e_nodeCount (hubResponse.NodeCount grid));;
          modify (GaugeVec_Set e_version [hubResponse.Version grid] 1);;
          clear_node_metrics;;
          for_range (hubResponse.Nodes (hubResponse.NodesInfo (hubResponse.Data hResponse)))
            (λ n,
              modify (GaugeVec_Set e_nodeStatus
                [HubResponseNode.Id n; HubResponseNode.Uri n; HubResponseNode.Status n] 1);;
              modify (GaugeVec_Set e_nodeMaxSession
                [HubResponseNode.Id n; HubResponseNode.Uri n] (HubResponseNode.MaxSession n));;
              modify (GaugeVec_Set e_nodeSlotCount
                [HubResponseNode.Id n; HubResponseNode.Uri n] (HubResponseNode.SlotCount n));;
              modify (GaugeVec_Set e_nodeSessionCount
                [HubResponseNode.Id n; HubResponseNode.Uri n] (HubResponseNode.SessionCount n));;
              modify (GaugeVec_Set e_nodeVersion
                [HubResponseNode.Id n; HubResponseNode.Uri n; HubResponseNode.Version n] 1))
      end
  end.

(** [Collect] takes no lock: it scrapes, then hands every metric to the
    exposition. *)
Definition Collect (u : Upstream) : Prog (list Metric) :=
  scrape u;;
  m1 ← send (BuildFQName nameSpace gridSubsystem "up") e_up;
  m2 ← send (BuildFQName nameSpace gridSubsystem "total_slots") e_totalSlots;
  m3 ← send (BuildFQName nameSpace gridSubsystem "max_session") e_maxSession;
  m4 ← send (BuildFQName nameSpace gridSubsystem "session_count") e_sessionCount;
  m5 ← send (BuildFQName nameSpace gridSubsystem "session_queue_size") e_sessionQueueSize;
  m6 ← send (BuildFQName nameSpace gridSubsystem "node_count") e_nodeCount;
  m7 ← GaugeVec_Collect (BuildFQName nameSpace gridSubsystem "version") e_version;
  m8 ← GaugeVec_Collect (BuildFQName nameSpace nodeSubsystem "status") e_nodeStatus;
  m9 ← GaugeVec_Collect (BuildFQName nameSpace nodeSubsystem "max_session") e_nodeMaxSession;
  m10 ← GaugeVec_Collect (BuildFQName nameSpace nodeSubsystem "slot_count") e_nodeSlotCount;
  m11 ← GaugeVec_Collect (BuildFQName nameSpace nodeSubsystem "session_count") e_nodeSessionCount;
  m12 ← GaugeVec_Collect (BuildFQName nameSpace nodeSubsystem "version") e_nodeVersion;
  mret (m1 ++ m2 ++ m3 ++ m4 ++ m5 ++ m6 ++ m7 ++ m8 ++ m9 ++ m10 ++ m11 ++ m12)%list.

(** The published metric state one refresh leaves, and a sequence of them. *)
Definition refresh (u : Upstream) (e : Exporter) : Exporter :=
  exporter (run (scrape u) (mkState e [])).2.

Definition refreshes (us : list Upstream) (e : Exporter) : Exporter :=
  foldl (λ e u, refresh u e) e us.

End Collector.

(** ** Vocabulary of the properties *)

(** What [fetch] returns for an exchange (it reads no metric). *)
Definition fetched (u : Upstream) : bytes * option error :=
  (run (fetch u) (mkState (NewExporter "") [])).1.

(** How one refresh goes: the two checks of [scrape], in its order. *)
Inductive Outcome :=
  | FetchError (err : error)
  | DecodeError (partial : hubResponse.t) (err : error)
  | Snapshot (hResponse : hubResponse.t).

Definition outcome (json_Unmarshal : bytes → hubResponse.t → hubResponse.t * option error)
    (u : Upstream) : Outcome :=
  match fetched u with
  | (_, Some err) => FetchError err
  | (body, None) =>
      match json_Unmarshal body hubResponse.zero with
      | (h, Some err) => DecodeError h err
      | (h, None) => Snapshot h
      end
  end.

Definition failed (o : Outcome) : Prop :=
  match o with Snapshot _ => False | _ => True end.

Definition grid_of (h : hubResponse.t) : hubResponse.Grid_t :=
  hubResponse.Grid (hubResponse.Data h).

Definition nodes_of (h : hubResponse.t) : list HubResponseNode.t :=
  hubResponse.Nodes (hubResponse.NodesInfo (hubResponse.Data h)).

(** The five grid-level scalar gauges. *)
Definition grid_scalars (e : Exporter) : float64 * float64 * float64 * float64 * float64 :=
  (totalSlots e, maxSession e, sessionCount e, sessionQueueSize e, nodeCount e).

Definition snapshot_scalars (h : hubResponse.t)
    : float64 * float64 * float64 * float64 * float64 :=
  (hubResponse.TotalSlots (grid_of h), hubResponse.MaxSession (grid_of h),
   hubResponse.SessionCount (grid_of h), hubResponse.SessionQueueSize (grid_of h),
   hubResponse.NodeCount (grid_of h)).

(** The per-node metric set: the five node vectors. *)
Definition node_metrics (e : Exporter)
    : GaugeVec * GaugeVec * GaugeVec * GaugeVec * GaugeVec :=
  (nodeStatus e, nodeMaxSession e, nodeSlotCount e, nodeSessionCount e, nodeVersion e).

Definition node_metrics_empty (e : Exporter) : Prop :=
  node_metrics e = (∅, ∅, ∅, ∅, ∅).

(** The last node of a snapshot reported under the label values [id; uri]. *)
Definition last_with (ns : list HubResponseNode.t) (lvs : list string)
    : option HubResponseNode.t :=
  last (filter (λ n, [HubResponseNode.Id n; HubResponseNode.Uri n] = lvs) ns).

(** The node vectors hold exactly what the nodes [ns] report: a status and a
    version child, at 1, for each reported tuple and for no other, and the
    three counters of the node reported under [id; uri] (of the last one, when
    a pair is repeated). *)
Definition node_metrics_reflect (e : Exporter) (ns : list HubResponseNode.t) : Prop :=
  (∀ lvs v, nodeStatus e !! lvs = Some v ↔
     v = 1%float ∧ ∃ n, n ∈ ns ∧
       lvs = [HubResponseNode.Id n; HubResponseNode.Uri n; HubResponseNode.Status n]) ∧
  (∀ lvs, nodeMaxSession e !! lvs = HubResponseNode.MaxSession <$> last_with ns lvs) ∧
  (∀ lvs, nodeSlotCount e !! lvs = HubResponseNode.SlotCount <$> last_with ns lvs) ∧
  (∀ lvs, nodeSessionCount e !! lvs = HubResponseNode.SessionCount <$> last_with ns lvs) ∧
  (∀ lvs v, nodeVersion e !! lvs = Some v ↔
     v = 1%float ∧ ∃ n, n ∈ ns ∧
       lvs = [HubResponseNode.Id n; HubResponseNode.Uri n; HubResponseNode.Version n]).

(** ** Two concurrent callers *)

(** The next atomic operation of a computation, applied to the shared state. *)
Definition step {A} (p : Prog A) (s : State) : Prog A * State :=
  match p with
  | Ret a => (Ret a, s)
  | Mutate g k => (k, mkState (g (exporter s)) (logged s))
  | Observe g k => (k (g (exporter s)), s)
  | Emit en k => (k, mkState (exporter s) (logged s ++ [en])%list)
  end.

Inductive Caller := CallerA | CallerB.

(** Two computations on one shared state; the schedule names the caller that
    performs each next operation. *)
Fixpoint interleave {X Y} (sched : list Caller) (a : Prog X) (b : Prog Y) (s : State)
    : Prog X * Prog Y * State :=
  match sched with
  | [] => (a, b, s)
  | CallerA :: sched' => let '(a', s') := step a s in interleave sched' a' b s'
  | CallerB :: sched' => let '(b', s') := step b s in interleave sched' a b' s'
  end.

(** ** A decoder given by a table, for closed examples *)

#[global] Instance byte_eq_dec : EqDecision Byte.byte := Byte.byte_eq_dec.

Fixpoint table_Unmarshal (table : list (bytes * hubResponse.t))
    (body : bytes) (target : hubResponse.t) : hubResponse.t * option error :=
  match table with
  | [] => (target, Some "invalid character")
  | (b, h) :: table' =>
      if decide (b = body) then (h, None) else table_Unmarshal table' body target
  end.

(** ** Fixtures: the scenario of the specification *)

Definition node_n1 : HubResponseNode.t :=
  HubResponseNode.mk "n1" "http://10.0.1.1:5555" "UP" 8 24 0 "4.1.0".

Definition payload_4_1_0 : hubResponse.t :=
  hubResponse.mk (hubResponse.mkData
    (hubResponse.mkGrid 72 24 0 0 1 "4.1.0")
    (hubResponse.mkNodesInfo [node_n1])).

Definition payload_4_2_0 : hubResponse.t :=
  hubResponse.mk (hubResponse.mkData
    (hubResponse.mkGrid 72 24 0 0 1 "4.2.0")
    (hubResponse.mkNodesInfo [node_n1])).

Definition body_4_1_0 : bytes := String.list_byte_of_string "grid 4.1.0, node n1".
Definition body_4_2_0 : bytes := String.list_byte_of_string "grid 4.2.0, node n1".
Definition body_not_json : bytes := String.list_byte_of_string "not json".

Definition fixture_Unmarshal : bytes → hubResponse.t → hubResponse.t * option error :=
  table_Unmarshal [(body_4_1_0, payload_4_1_0); (body_4_2_0, payload_4_2_0)].

Definition responds_200 (body : bytes) : Upstream :=
  Responds (http.mkResponse "200 OK" 200 (body, None)).

Definition grid_local : string := "http://grid.local".

Definition upstream_4_1_0 : Upstream := responds_200 body_4_1_0.
Definition upstream_4_2_0 : Upstream := responds_200 body_4_2_0.
Definition upstream_not_json : Upstream := responds_200 body_not_json.
Definition upstream_refused : Upstream := DoFails "connection refused".
Definition upstream_timeout : Upstream := DoFails "context deadline exceeded".
Definition upstream_503 : Upstream :=
  Responds (http.mkResponse "503 Service Unavailable" 503 ([], None)).
Definition response_201 : http.Response :=
  http.mkResponse "201 Created" 201 (body_4_1_0, None).

(** The exporter after one refresh that decoded the scenario's payload. *)
Definition exporter_at_4_1_0 : Exporter :=
  refresh fixture_Unmarshal upstream_4_1_0 (NewExporter grid_local).

(** Caller A receives the scenario's payload, caller B a refused connection.
    A runs up to its five [Reset] calls, B then performs its whole failure
    path, A fills the node vectors and hands its metrics over, and B hands
    over its own. *)
Definition torn_schedule : list Caller :=
  replicate 13 CallerA ++ replicate 8 CallerB ++
  replicate 17 CallerA ++ replicate 12 CallerB.

(** ** Closed forms of one refresh *)

(** What the loop body of [scrape] does for one node. *)
Definition publish_node (n : HubResponseNode.t) (e : Exporter) : Exporter :=
  GaugeVec_Set e_nodeVersion
    [HubResponseNode.Id n; HubResponseNode.Uri n; HubResponseNode.Version n] 1
  (GaugeVec_Set e_nodeSessionCount
    [HubResponseNode.Id n; HubResponseNode.Uri n] (HubResponseNode.SessionCount n)
  (GaugeVec_Set e_nodeSlotCount
    [HubResponseNode.Id n; HubResponseNode.Uri n] (HubResponseNode.SlotCount n)
  (GaugeVec_Set e_nodeMaxSession
    [HubResponseNode.Id n; HubResponseNode.Uri n] (HubResponseNode.MaxSession n)
  (GaugeVec_Set e_nodeStatus
    [HubResponseNode.Id n; HubResponseNode.Uri n; HubResponseNode.Status n] 1 e)))).

(** A vector filled from empty, one child per node, later nodes overwriting. *)
Definition vec_of (key : HubResponseNode.t → list string) (val : HubResponseNode.t → float64)
    (ns : list HubResponseNode.t) (m : GaugeVec) : GaugeVec :=
  foldl (λ m n, <[key n := val n]> m) m ns.

Definition key2 (n : HubResponseNode.t) : list string :=
  [HubResponseNode.Id n; HubResponseNode.Uri n].
Definition key_status (n : HubResponseNode.t) : list string :=
  [HubResponseNode.Id n; HubResponseNode.Uri n; HubResponseNode.Status n].
Definition key_version (n : HubResponseNode.t) : list string :=
  [HubResponseNode.Id n; HubResponseNode.Uri n; HubResponseNode.Version n].

(** The state a failed refresh leaves. *)
Definition on_failure (e : Exporter) : Exporter :=
  mkExporter (URI e) 0 (totalSlots e) (maxSession e) (sessionCount e)
    (sessionQueueSize e) (version e) (nodeCount e) ∅ ∅ ∅ ∅ ∅.

(** The state a refresh that decoded [h] leaves. *)
Definition on_snapshot (h : hubResponse.t) (e : Exporter) : Exporter :=
  mkExporter (URI e) 1
    (hubResponse.TotalSlots (grid_of h)) (hubResponse.MaxSession (grid_of h))
    (hubResponse.SessionCount (grid_of h)) (hubResponse.SessionQueueSize (grid_of h))
    (<[ [hubResponse.Version (grid_of h)] := 1%float ]> (version e))
    (hubResponse.NodeCount (grid_of h))
    (vec_of key_status (λ _, 1%float) (nodes_of h) ∅)
    (vec_of key2 HubResponseNode.MaxSession (nodes_of h) ∅)
    (vec_of key2 HubResponseNode.SlotCount (nodes_of h) ∅)
    (vec_of key2 HubResponseNode.SessionCount (nodes_of h) ∅)
    (vec_of key_version (λ _, 1%float) (nodes_of h) ∅).

(** ** Describe *)

Definition nodeIdLabel := "node_id".
Definition nodeUriLabel := "node_uri".
Definition statusLabel := "status".
Definition versionLabel := "version".

(** A [prometheus.Desc], as far as the collector determines it: the name
    built from the [GaugeOpts], the help text and the label names. *)
Record Desc := mkDesc {
  desc_fqName : string;
  desc_help : string;
  desc_variableLabels : list string
}.

(** The descriptor [prometheus.NewGauge] or [prometheus.NewGaugeVec] gives the
    metric made from these options. *)
Definition NewDesc (namespace subsystem name help : string) (labels : list string) : Desc :=
  mkDesc (BuildFQName namespace subsystem name) help labels.

(** [Describe]: the descriptors of the twelve metrics of [NewExporter], in the
    order they are sent. *)
Definition Describe : list Desc :=
  [ NewDesc nameSpace gridSubsystem "up"
      "Was the last scrape of Selenium Grid successful." [];
    NewDesc nameSpace gridSubsystem "total_slots" "Total number of slots." [];
    NewDesc nameSpace gridSubsystem "max_session" "Maximum number of sessions." [];
    NewDesc nameSpace gridSubsystem "session_count" "Number of active sessions." [];
    NewDesc nameSpace gridSubsystem "session_queue_size" "Number of queued sessions." [];
    NewDesc nameSpace gridSubsystem "node_count" "Number of nodes." [];
    NewDesc nameSpace gridSubsystem "version" "Hub/Router version." [versionLabel];
    NewDesc nameSpace nodeSubsystem "status" "Node status."
      [nodeIdLabel; nodeUriLabel; statusLabel];
    NewDesc nameSpace nodeSubsystem "max_session" "Maximum number of sessions on node."
      [nodeIdLabel; nodeUriLabel];
    NewDesc nameSpace nodeSubsystem "slot_count" "Number of slots on node."
      [nodeIdLabel; nodeUriLabel];
    NewDesc nameSpace nodeSubsystem "session_count" "Number of active sessions on node."
      [nodeIdLabel; nodeUriLabel];
    NewDesc nameSpace nodeSubsystem "version" "Node version."
      [nodeIdLabel; nodeUriLabel; versionLabel] ].

(** ** Vocabulary of the further properties *)

(** The metrics of one vector, as [GaugeVec_Collect] sends them. *)
Definition vec_metrics (name : string) (m : GaugeVec) : list Metric :=
  (λ kv, mkMetric name kv.1 kv.2) <$> map_to_list m.

(** Everything [Collect] sends for a state of the exporter. *)
Definition exposition (e : Exporter) : list Metric :=
  ([mkMetric (BuildFQName nameSpace gridSubsystem "up") [] (up e)] ++
   [mkMetric (BuildFQName nameSpace gridSubsystem "total_slots") [] (totalSlots e)] ++
   [mkMetric (BuildFQName nameSpace gridSubsystem "max_session") [] (maxSession e)] ++
   [mkMetric (BuildFQName nameSpace gridSubsystem "session_count") [] (sessionCount e)] ++
   [mkMetric (BuildFQName nameSpace gridSubsystem "session_queue_size") []
      (sessionQueueSize e)] ++
   [mkMetric (BuildFQName nameSpace gridSubsystem "node_count") [] (nodeCount e)] ++
   vec_metrics (BuildFQName nameSpace gridSubsystem "version") (version e) ++
   vec_metrics (BuildFQName nameSpace nodeSubsystem "status") (nodeStatus e) ++
   vec_metrics (BuildFQName nameSpace nodeSubsystem "max_session") (nodeMaxSession e) ++
   vec_metrics (BuildFQName nameSpace nodeSubsystem "slot_count") (nodeSlotCount e) ++
   vec_metrics (BuildFQName nameSpace nodeSubsystem "session_count") (nodeSessionCount e) ++
   vec_metrics (BuildFQName nameSpace nodeSubsystem "version") (nodeVersion e))%list.

(** The metrics of the node subsystem among those sent. *)
Definition is_node_metric (m : Metric) : Prop :=
  fqName m ∈ [ BuildFQName nameSpace nodeSubsystem "status";
               BuildFQName nameSpace nodeSubsystem "max_session";
               BuildFQName nameSpace nodeSubsystem "slot_count";
               BuildFQName nameSpace nodeSubsystem "session_count";
               BuildFQName nameSpace nodeSubsystem "version" ].

(** Every child of a vector has as many label values as the vector has label
    names, and the children of the three vectors that only flag a tuple
    (version, node status, node version) are at 1. *)
Definition arity (n : nat) (m : GaugeVec) : Prop :=
  ∀ lvs v, m !! lvs = Some v → length lvs = n.

Definition flags (m : GaugeVec) : Prop :=
  ∀ lvs v, m !! lvs = Some v → v = 1%float.

Definition well_labelled (e : Exporter) : Prop :=
  arity 1 (version e) ∧ arity 3 (nodeStatus e) ∧ arity 2 (nodeMaxSession e) ∧
  arity 2 (nodeSlotCount e) ∧ arity 2 (nodeSessionCount e) ∧ arity 3 (nodeVersion e) ∧
  flags (version e) ∧ flags (nodeStatus e) ∧ flags (nodeVersion e).

(** The snapshots a sequence of exchanges decodes, in order. *)
Definition snapshots (json_Unmarshal : bytes → hubResponse.t → hubResponse.t * option error)
    (us : list Upstream) : list hubResponse.t :=
  omap (λ u, match outcome json_Unmarshal u with
             | Snapshot h => Some h
             | _ => None
             end) us.

(** The metrics [out] are of declared families: each has a descriptor of its
    name in [Describe], with as many label names as it has label values. *)
Definition described (out : list Metric) : Prop :=
  ∀ m, m ∈ out →
    ∃ d, d ∈ Describe ∧ desc_fqName d = fqName m ∧
         length (desc_variableLabels d) = length (labelValues m).

(** The metrics [out] all have the name [name] and [n] label values. *)
Definition family (name : string) (n : nat) (out : list Metric) : Prop :=
  ∀ m, m ∈ out → fqName m = name ∧ length (labelValues m) = n.

(** A computation keeps the states in [I] and returns within [Q], whatever
    other operations that keep [I] come between its own: each of its writes
    takes [I] to [I], and what it reads it reads from a state in [I]. *)
Fixpoint safe {A} (I : Exporter → Prop) (Q : A → Prop) (p : Prog A) : Prop :=
  match p with
  | Ret a => Q a
  | Mutate g k => (∀ e, I e → I (g e)) ∧ safe I Q k
  | Observe g k => ∀ e, I e → safe I Q (k (g e))
  | Emit _ k => safe I Q k
  end.

(** What [fetch] logs for an exchange. *)
Definition fetch_entries (u : Upstream) : list Entry :=
  logged (run (fetch u) (mkState (NewExporter "") [])).2.

Definition is_error_entry (en : Entry) : Prop := level en = ErrorLevel.

(** ** Further fixtures *)

Definition node_A : HubResponseNode.t :=
  HubResponseNode.mk "A" "http://10.0.1.1:5555" "UP" 8 24 1 "4.1.0".
Definition node_B : HubResponseNode.t :=
  HubResponseNode.mk "B" "http://10.0.1.2:5555" "UP" 8 24 2 "4.1.0".
Definition node_C : HubResponseNode.t :=
  HubResponseNode.mk "C" "http://10.0.1.3:5555" "UP" 4 12 0 "4.1.0".
(** Node A reported a second time, draining and with other counters. *)
Definition node_A_draining : HubResponseNode.t :=
  HubResponseNode.mk "A" "http://10.0.1.1:5555" "DRAINING" 8 24 5 "4.1.0".

Definition payload_of (ns : list HubResponseNode.t) : hubResponse.t :=
  hubResponse.mk (hubResponse.mkData
    (hubResponse.mkGrid 72 24 3 0 2 "4.1.0") (hubResponse.mkNodesInfo ns)).

Definition body_AB : bytes := String.list_byte_of_string "nodes A, B".
Definition body_BC : bytes := String.list_byte_of_string "nodes B, C".
Definition body_AA : bytes := String.list_byte_of_string "node A twice".
Definition body_none : bytes := String.list_byte_of_string "no nodes".

Definition nodes_Unmarshal : bytes → hubResponse.t → hubResponse.t * option error :=
  table_Unmarshal
    [ (body_AB, payload_of [node_A; node_B]);
      (body_BC, payload_of [node_B; node_C]);
      (body_AA, payload_of [node_A; node_A_draining]);
      (body_none, payload_of []) ].

Definition upstream_AB : Upstream := responds_200 body_AB.
Definition upstream_BC : Upstream := responds_200 body_BC.
Definition upstream_AA : Upstream := responds_200 body_AA.
Definition upstream_none : Upstream := responds_200 body_none.

(** A 503 response that carries the scenario's body all the same. *)
Definition response_503_with_body : http.Response :=
  http.mkResponse "503 Service Unavailable" 503 (body_4_1_0, None).


(** A 200 response whose body breaks off while it is read. *)
Definition response_cut : http.Response :=
  http.mkResponse "200 OK" 200 (body_AB, Some "unexpected EOF").

(** * The earlier exporter (selenium_grid_exporter.go)

    The same metrics and the same upstream query, collected differently:
    [Collect] holds the exporter's mutex from its first statement to its
    return, [scrape] zeroes and resets everything before it fetches and fills
    the vectors with [Add], and [fetch] does not look at the status of the
    response and prints its errors on standard output. *)

Module Legacy.

(** The exporter's gauges, the log, standard output and the mutex. *)
Record State := mkState {
  exporter : Exporter;
  logged : list Entry;
  stdout : list string;
  mutex : bool        (* held *)
}.

(** A computation as the sequence of its atomic operations, as for the other
    exporter, with a line printed on standard output and the two operations
    of the mutex besides. *)
Inductive Prog (A : Type) : Type :=
  | Ret (a : A)
  | Mutate (f : Exporter → Exporter) (k : Prog A)
  | Observe (X : Type) (f : Exporter → X) (k : X → Prog A)
  | Emit (en : Entry) (k : Prog A)
  | Print (line : string) (k : Prog A)
  | Lock (k : Prog A)
  | Unlock (k : Prog A).
Arguments Ret {A} _.
Arguments Mutate {A} _ _.
Arguments Observe {A X} _ _.
Arguments Emit {A} _ _.
Arguments Print {A} _ _.
Arguments Lock {A} _.
Arguments Unlock {A} _.

Fixpoint bind {A B} (m : Prog A) (f : A → Prog B) : Prog B :=
  match m with
  | Ret a => f a
  | Mutate g k => Mutate g (bind k f)
  | Observe g k => Observe g (λ x, bind (k x) f)
  | Emit en k => Emit en (bind k f)
  | Print line k => Print line (bind k f)
  | Lock k => Lock (bind k f)
  | Unlock k => Unlock (bind k f)
  end.

#[global] Instance Prog_ret : MRet Prog := λ A a, Ret a.
#[global] Instance Prog_bind : MBind Prog := λ A B f m, bind m f.

Definition with_exporter (e : Exporter) (s : State) : State :=
  mkState e (logged s) (stdout s) (mutex s).
Definition with_mutex (held : bool) (s : State) : State :=
  mkState (exporter s) (logged s) (stdout s) held.

(** One caller alone: the operations in program order; the mutex is free
    whenever the caller asks for it. *)
Fixpoint run {A} (m : Prog A) (s : State) : A * State :=
  match m with
  | Ret a => (a, s)
  | Mutate g k => run k (with_exporter (g (exporter s)) s)
  | Observe g k => run (k (g (exporter s))) s
  | Emit en k => run k (mkState (exporter s) (logged s ++ [en])%list (stdout s) (mutex s))
  | Print line k =>
      run k (mkState (exporter s) (logged s) (stdout s ++ [line])%list (mutex s))
  | Lock k => run k (with_mutex true s)
  | Unlock k => run k (with_mutex false s)
  end.

(** The next operation of a caller among others: [Lock] waits while the
    mutex is held. *)
Definition step {A} (p : Prog A) (s : State) : Prog A * State :=
  match p with
  | Ret a => (Ret a, s)
  | Mutate g k => (k, with_exporter (g (exporter s)) s)
  | Observe g k => (k (g (exporter s)), s)
  | Emit en k => (k, mkState (exporter s) (logged s ++ [en])%list (stdout s) (mutex s))
  | Print line k =>
      (k, mkState (exporter s) (logged s) (stdout s ++ [line])%list (mutex s))
  | Lock k => if mutex s then (Lock k, s) else (k, with_mutex true s)
  | Unlock k => (k, with_mutex false s)
  end.

Fixpoint interleave {X Y} (sched : list Caller) (a : Prog X) (b : Prog Y) (s : State)
    : Prog X * Prog Y * State :=
  match sched with
  | [] => (a, b, s)
  | CallerA :: sched' => let '(a', s') := step a s in interleave sched' a' b s'
  | CallerB :: sched' => let '(b', s') := step b s in interleave sched' a b' s'
  end.

Definition modify (f : Exporter → Exporter) : Prog unit := Mutate f (Ret tt).
Definition read {X} (f : Exporter → X) : Prog X := Observe f Ret.
Definition log_Errorf (msg : string) : Prog unit := Emit (mkEntry ErrorLevel msg) (Ret tt).
Definition fmt_Println (line : string) : Prog unit := Print line (Ret tt).
Definition mutex_Lock : Prog unit := Lock (Ret tt).
Definition mutex_Unlock : Prog unit := Unlock (Ret tt).

(** [defer d] at the head of a function body: [d] runs when the body
    returns. *)
Definition defer {A} (d : Prog unit) (body : Prog A) : Prog A :=
  a ← body; d;; mret a.

Fixpoint for_range {A} (xs : list A) (body : A → Prog unit) : Prog unit :=
  match xs with
  | [] => mret tt
  | x :: xs' => body x;; for_range xs' body
  end.

(** [vec.WithLabelValues(lvs...).Add(v)]: the child for [lvs] is created at 0
    when absent, then [v] is added to it. *)
Definition GaugeVec_Add (vec : Field GaugeVec) (lvs : list string) (v : float64)
    : Exporter → Exporter :=
  λ e, put vec (<[lvs := (default 0%float (get vec e !! lvs) + v)%float]> (get vec e)) e.

Definition send (name : string) (g : Field float64) : Prog (list Metric) :=
  read (λ e, [mkMetric name [] (get g e)]).

Definition GaugeVec_Collect (name : string) (vec : Field GaugeVec) : Prog (list Metric) :=
  read (λ e, vec_metrics name (get vec e)).

(** [fetch]: no check of the status; the errors of the request and of the
    transport are printed, the error of reading the body is returned with
    what was read. *)
Definition fetch (u : Upstream) : Prog (bytes * option error) :=
  match u with
  | NewRequestFails err => fmt_Println err;; mret ([], Some err)
  | DoFails err => fmt_Println err;; mret ([], Some err)
  | Responds resp => mret (http.ReadAll resp)
  end.

Section Collector.

Variable json_Unmarshal : bytes → hubResponse.t → hubResponse.t * option error.

Definition scrape (u : Upstream) : Prog unit :=
  modify (Gauge_Set e_totalSlots 0);;
  modify (Gauge_Set e_maxSession 0);;
  modify (Gauge_Set e_sessionCount 0);;
  modify (Gauge_Set e_sessionQueueSize 0);;
  modify (Gauge_Set e_nodeCount 0);;
  modify (GaugeVec_Reset e_version);;
  modify (GaugeVec_Reset e_nodeStatus);;
  modify (GaugeVec_Reset e_nodeMaxSession);;
  modify (GaugeVec_Reset e_nodeSlotCount);;
  modify (GaugeVec_Reset e_nodeSessionCount);;
  modify (GaugeVec_Reset e_nodeVersion);;
  '(body, err) ← fetch u;
  match err with
  | Some err =>
      modify (Gauge_Set e_up 0);;
      log_Errorf ("Can't scrape Selenium Grid: " ++ err)
  | None =>
      modify (Gauge_Set e_up 1);;
      let '(hResponse, err) := json_Unmarshal body hubResponse.zero in
      match err with
      | Some err => log_Errorf ("Can't decode Selenium Grid response: " ++ err)
      | None =>
          let grid := hubResponse.Grid (hubResponse.Data hResponse) in
          modify (Gauge_Set e_totalSlots (hubResponse.TotalSlots grid));;
          modify (Gauge_Set e_maxSession (hubResponse.MaxSession grid));;
          modify (Gauge_Set e_sessionCount (hubResponse.SessionCount grid));;
          modify (Gauge_Set e_sessionQueueSize (hubResponse.SessionQueueSize grid));;
          modify (Gauge_Set e_nodeCount (hubResponse.NodeCount grid));;
          modify (GaugeVec_Add e_version [hubResponse.Version grid] 1);;
          for_range (hubResponse.Nodes (hubResponse.NodesInfo (hubResponse.Data hResponse)))
            (λ n,
              modify (GaugeVec_Add e_nodeStatus
                [HubResponseNode.Id n; HubResponseNode.Uri n; HubResponseNode.Status n] 1);;
              modify (GaugeVec_Add e_nodeMaxSession
                [HubResponseNode.Id n; HubResponseNode.Uri n] (HubResponseNode.MaxSession n));;
              modify (GaugeVec_Add e_nodeSlotCount
                [HubResponseNode.Id n; HubResponseNode.Uri n] (HubResponseNode.SlotCount n));;
              modify (GaugeVec_Add e_nodeSessionCount
                [HubResponseNode.Id n; HubResponseNode.Uri n] (HubResponseNode.SessionCount n));;
              modify (GaugeVec_Add e_nodeVersion
                [HubResponseNode.Id n; HubResponseNode.Uri n; HubResponseNode.Version n] 1))
      end
  end.

(** What [Collect] does between taking the mutex and giving it back. *)
Definition collect_body (u : Upstream) : Prog (list Metric) :=
  scrape u;;
  m1 ← send (BuildFQName nameSpace gridSubsystem "up") e_up;
  m2 ← send (BuildFQName nameSpace gridSubsystem "total_slots") e_totalSlots;
  m3 ← send (BuildFQName nameSpace gridSubsystem "max_session") e_maxSession;
  m4 ← send (BuildFQName nameSpace gridSubsystem "session_count") e_sessionCount;
  m5 ← send (BuildFQName nameSpace gridSubsystem "session_queue_size") e_sessionQueueSize;
  m6 ← send (BuildFQName nameSpace gridSubsystem "node_count") e_nodeCount;
  m7 ← GaugeVec_Collect (BuildFQName nameSpace gridSubsystem "version") e_version;
  m8 ← GaugeVec_Collect (BuildFQName nameSpace nodeSubsystem "status") e_nodeStatus;
  m9 ← GaugeVec_Collect (BuildFQName nameSpace nodeSubsystem "max_session") e_nodeMaxSession;
  m10 ← GaugeVec_Collect (BuildFQName nameSpace nodeSubsystem "slot_count") e_nodeSlotCount;
  m11 ← GaugeVec_Collect (BuildFQName nameSpace nodeSubsystem "session_count") e_nodeSessionCount;
  m12 ← GaugeVec_Collect (BuildFQName nameSpace nodeSubsystem "version") e_nodeVersion;
  mret (m1 ++ m2 ++ m3 ++ m4 ++ m5 ++ m6 ++ m7 ++ m8 ++ m9 ++ m10 ++ m11 ++ m12)%list.

Definition Collect (u : Upstream) : Prog (list Metric) :=
  mutex_Lock;;
  defer mutex_Unlock (collect_body u).

(** The published metric state one refresh leaves. *)
Definition refresh (u : Upstream) (e : Exporter) : Exporter :=
  exporter (run (scrape u) (mkState e [] [] false)).2.

End Collector.

(** What [fetch] returns for an exchange. *)
Definition fetched (u : Upstream) : bytes * option error :=
  (run (fetch u) (mkState (NewExporter "") [] [] false)).1.

Definition outcome (json_Unmarshal : bytes → hubResponse.t → hubResponse.t * option error)
    (u : Upstream) : Outcome :=
  match fetched u with
  | (_, Some err) => FetchError err
  | (body, None) =>
      match json_Unmarshal body hubResponse.zero with
      | (h, Some err) => DecodeError h err
      | (h, None) => Snapshot h
      end
  end.

(** Every published metric: what a refresh may change. *)
Definition metrics (e : Exporter) :=
  (up e, grid_scalars e, version e, node_metrics e).

(** The sum [Add] accumulates in a child: from 0, the values of the nodes
    listed under its label values, in their order. *)
Definition added (key : HubResponseNode.t → list string) (val : HubResponseNode.t → float64)
    (ns : list HubResponseNode.t) (lvs : list string) : option float64 :=
  match filter (λ n, key n = lvs) ns with
  | [] => None
  | l => Some (foldl (λ acc n, (acc + val n)%float) 0%float l)
  end.



(** A vector filled by the loop of [scrape]: one [Add] per node. *)
Definition vec_add (key : HubResponseNode.t → list string) (val : HubResponseNode.t → float64)
    (ns : list HubResponseNode.t) (m : GaugeVec) : GaugeVec :=
  foldl (λ m n, <[key n := (default 0%float (m !! key n) + val n)%float]> m) m ns.

(** What the loop body of [scrape] does for one node. *)
Definition publish_node (n : HubResponseNode.t) (e : Exporter) : Exporter :=
  GaugeVec_Add e_nodeVersion (key_version n) 1
  (GaugeVec_Add e_nodeSessionCount (key2 n) (HubResponseNode.SessionCount n)
  (GaugeVec_Add e_nodeSlotCount (key2 n) (HubResponseNode.SlotCount n)
  (GaugeVec_Add e_nodeMaxSession (key2 n) (HubResponseNode.MaxSession n)
  (GaugeVec_Add e_nodeStatus (key_status n) 1 e)))).


End Legacy.

(** * Properties *)

Section Properties.

Variable json_Unmarshal : bytes → hubResponse.t → hubResponse.t * option error.

Lemma run_bind {A B} (m : Prog A) (f : A → Prog B) (s : State) :
  run (m ≫= f) s = run (f (run m s).1) (run m s).2.
Proof.
  revert s. induction m as [a|g k IH|X g k IH|en k IH]; intros s; simpl; auto.
Qed.

Lemma run_fetch (u : Upstream) (s : State) :
  (run (fetch u) s).1 = fetched u ∧ exporter (run (fetch u) s).2 = exporter s.
Proof.
  unfold fetched.
  destruct u as [err|err|resp]; simpl; auto.
  destruct (bool_decide _); simpl; auto.
  destruct (http.ReadAll resp) as [body [err|]]; simpl; auto.
Qed.

Lemma run_for_range {A} (xs : list A) (body : A → Prog unit) (f : A → Exporter → Exporter) :
  (∀ x s, exporter (run (body x) s).2 = f x (exporter s)) →
  ∀ s, exporter (run (for_range xs body) s).2 = foldl (λ e x, f x e) (exporter s) xs.
Proof.
  intros Hbody. induction xs as [|x xs IH]; intros s; simpl; [done|].
  rewrite run_bind, IH, Hbody. done.
Qed.

Lemma publish_nodes_fields (ns : list HubResponseNode.t) (e : Exporter) :
  foldl (λ e n, publish_node n e) e ns =
  mkExporter (URI e) (up e) (totalSlots e) (maxSession e) (sessionCount e)
    (sessionQueueSize e) (version e) (nodeCount e)
    (vec_of key_status (λ _, 1%float) ns (nodeStatus e))
    (vec_of key2 HubResponseNode.MaxSession ns (nodeMaxSession e))
    (vec_of key2 HubResponseNode.SlotCount ns (nodeSlotCount e))
    (vec_of key2 HubResponseNode.SessionCount ns (nodeSessionCount e))
    (vec_of key_version (λ _, 1%float) ns (nodeVersion e)).
Proof.
  revert e. induction ns as [|n ns IH]; intros e; [by destruct e|].
  simpl. rewrite IH. reflexivity.
Qed.

(** One [scrape], in closed form: what it leaves depends on the state before
    only through the fields it does not write. *)
Lemma run_scrape (u : Upstream) (s : State) :
  exporter (run (scrape json_Unmarshal u) s).2 =
  match outcome json_Unmarshal u with
  | Snapshot h => on_snapshot h (exporter s)
  | _ => on_failure (exporter s)
  end.
Proof.
  unfold scrape, outcome.
  rewrite run_bind.
  destruct (run_fetch u s) as [Hres Hexp].
  destruct (run (fetch u) s) as [res s1]. simpl in Hres, Hexp. subst res.
  destruct (fetched u) as [body [err|]]; cbn [fst snd]; cbv beta iota.
  - simpl. rewrite Hexp. reflexivity.
  - destruct (json_Unmarshal body hubResponse.zero) as [h [err|]].
    + simpl. rewrite Hexp. reflexivity.
    + cbv zeta.
      repeat (rewrite run_bind;
              cbn [run modify logrus_Info logrus_log fst snd exporter logged
                   clear_node_metrics]).
      rewrite (run_for_range _ _ publish_node) by reflexivity.
      rewrite publish_nodes_fields. simpl. rewrite Hexp. reflexivity.
Qed.

Lemma refresh_closed_form (u : Upstream) (e : Exporter) :
  refresh json_Unmarshal u e =
  match outcome json_Unmarshal u with
  | Snapshot h => on_snapshot h e
  | _ => on_failure e
  end.
Proof. unfold refresh. apply run_scrape. Qed.

(** [refresh] is [scrape] whatever was logged before. *)
Lemma run_scrape_exporter (u : Upstream) (s : State) :
  exporter (run (scrape json_Unmarshal u) s).2 = refresh json_Unmarshal u (exporter s).
Proof. by rewrite run_scrape, refresh_closed_form. Qed.

Lemma refreshes_snoc (us : list Upstream) (u : Upstream) (e : Exporter) :
  refreshes json_Unmarshal (us ++ [u]) e =
  refresh json_Unmarshal u (refreshes json_Unmarshal us e).
Proof. unfold refreshes. by rewrite foldl_snoc. Qed.

Lemma outcome_fetch_error (u : Upstream) (err : error) :
  (fetched u).2 = Some err → outcome json_Unmarshal u = FetchError err.
Proof. unfold outcome. destruct (fetched u) as [body [err'|]]; simpl; congruence. Qed.

(** *** Lookups in a vector filled by the loop *)

Lemma vec_of_lookup (key : HubResponseNode.t → list string)
    (val : HubResponseNode.t → float64) (ns : list HubResponseNode.t) (m : GaugeVec) (lvs : list string) :
  vec_of key val ns m !! lvs =
  match last (filter (λ n, key n = lvs) ns) with
  | Some n => Some (val n)
  | None => m !! lvs
  end.
Proof.
  revert m. induction ns as [|n ns IH]; intros m; [done|].
  unfold vec_of in *. simpl foldl. rewrite IH, filter_cons.
  destruct (decide (key n = lvs)) as [Heq|Hne].
  - rewrite last_cons. destruct (last _); [done|].
    by rewrite Heq, lookup_insert_eq.
  - destruct (last _); [done|]. by rewrite lookup_insert_ne.
Qed.

Lemma vec_of_flag_lookup (key : HubResponseNode.t → list string) (ns : list HubResponseNode.t) (lvs : list string) (v : float64) :
  vec_of key (λ _, 1%float) ns ∅ !! lvs = Some v ↔
  v = 1%float ∧ ∃ n, n ∈ ns ∧ lvs = key n.
Proof.
  rewrite vec_of_lookup.
  destruct (last _) as [n|] eqn:Hlast.
  - apply last_Some_elem_of, list_elem_of_filter in Hlast as [Hk Hin].
    split; [intros [= <-]; eauto|]. by intros [-> _].
  - apply last_None in Hlast. rewrite lookup_empty. split; [done|].
    intros [_ (n & Hin & ->)].
    assert (n ∈ filter (λ n0, key n0 = key n) ns) as Hf
      by (apply list_elem_of_filter; auto).
    rewrite Hlast in Hf. by apply not_elem_of_nil in Hf.
Qed.

Lemma vec_of_counter_lookup (val : HubResponseNode.t → float64) (ns : list HubResponseNode.t) (lvs : list string) :
  vec_of key2 val ns ∅ !! lvs = val <$> last_with ns lvs.
Proof.
  rewrite vec_of_lookup. unfold last_with, key2.
  destruct (last _); [done|]. apply lookup_empty.
Qed.

Lemma on_snapshot_reflects (h : hubResponse.t) (e : Exporter) :
  node_metrics_reflect (on_snapshot h e) (nodes_of h).
Proof.
  unfold node_metrics_reflect, on_snapshot; simpl.
  split_and!; intros; first [apply vec_of_flag_lookup | apply vec_of_counter_lookup].
Qed.

Lemma float_one_ne_zero : 1%float ≠ 0%float.
Proof.
  intros H. apply (f_equal (λ x, PrimFloat.eqb x 0)) in H.
  vm_compute in H. discriminate.
Qed.

(** *** What every single refresh leaves *)

Lemma refresh_failed (u : Upstream) (e : Exporter) :
  failed (outcome json_Unmarshal u) → refresh json_Unmarshal u e = on_failure e.
Proof. rewrite refresh_closed_form. by destruct (outcome json_Unmarshal u). Qed.

Lemma refresh_snapshot (u : Upstream) (h : hubResponse.t) (e : Exporter) :
  outcome json_Unmarshal u = Snapshot h → refresh json_Unmarshal u e = on_snapshot h e.
Proof. rewrite refresh_closed_form. by intros ->. Qed.

(** After one caller's refresh, [up = 0] goes with an empty node metric set. *)
Lemma refresh_down_has_no_nodes (u : Upstream) (e : Exporter) :
  up (refresh json_Unmarshal u e) = 0%float → node_metrics_empty (refresh json_Unmarshal u e).
Proof.
  rewrite refresh_closed_form.
  destruct (outcome json_Unmarshal u); simpl;
    first [done | intros H; by apply float_one_ne_zero in H].
Qed.

(** C1 (as amended). After any sequence of refreshes, whatever the
    interleaving of successes and failures: when the latest refresh decoded a
    snapshot, the per-node metric set reflects exactly the nodes of that
    snapshot and the grid version label set holds the snapshot's version at
    1; when the latest refresh failed, the per-node metric set is empty and
    the grid version label set is as the refresh found it. *)
Theorem C1_node_metrics_follow_latest_refresh
    (us : list Upstream) (u : Upstream) (e0 : Exporter) :
  match outcome json_Unmarshal u with
  | Snapshot h =>
      node_metrics_reflect (refreshes json_Unmarshal (us ++ [u]) e0) (nodes_of h) ∧
      version (refreshes json_Unmarshal (us ++ [u]) e0)
        !! [hubResponse.Version (grid_of h)] = Some 1%float
  | _ =>
      node_metrics_empty (refreshes json_Unmarshal (us ++ [u]) e0) ∧
      version (refreshes json_Unmarshal (us ++ [u]) e0) =
        version (refreshes json_Unmarshal us e0)
  end.
Proof.
  rewrite refreshes_snoc, refresh_closed_form.
  destruct (outcome json_Unmarshal u) as [err|partial err|h].
  - by split.
  - by split.
  - split; [apply on_snapshot_reflects|]. simpl. apply lookup_insert_eq.
Qed.

(** C3 (as amended). A refresh whose fetch step returns an error sets
    [up = 0] and leaves the per-node metric set empty, whatever it held
    before; the grid version label set is left as it was. *)
Theorem C3_fetch_error_clears_node_metrics (u : Upstream) (err : error) (e : Exporter) :
  (fetched u).2 = Some err →
  up (refresh json_Unmarshal u e) = 0%float ∧
  node_metrics_empty (refresh json_Unmarshal u e) ∧
  version (refresh json_Unmarshal u e) = version e.
Proof.
  intros Herr. rewrite refresh_failed; [done|].
  by rewrite (outcome_fetch_error _ _ Herr).
Qed.

(** C4. A refresh whose payload fails to decode leaves the published state
    exactly as a fetch failure would: [up = 0], the node metric set empty,
    and nothing of the partly decoded snapshot in any gauge. *)
Theorem C4_decode_error_as_fetch_error
    (u : Upstream) (partial : hubResponse.t) (err : error) (e : Exporter) :
  outcome json_Unmarshal u = DecodeError partial err →
  (∀ u' err', (fetched u').2 = Some err' →
     refresh json_Unmarshal u e = refresh json_Unmarshal u' e) ∧
  up (refresh json_Unmarshal u e) = 0%float ∧
  node_metrics_empty (refresh json_Unmarshal u e) ∧
  grid_scalars (refresh json_Unmarshal u e) = grid_scalars e ∧
  version (refresh json_Unmarshal u e) = version e.
Proof.
  intros Hdec.
  assert (refresh json_Unmarshal u e = on_failure e) as ->
    by (apply refresh_failed; by rewrite Hdec).
  split_and!; try done.
  intros u' err' Herr. symmetry. apply refresh_failed.
  by rewrite (outcome_fetch_error _ _ Herr).
Qed.

(** C5. A refresh that fails, at the fetch or at the decoding, leaves the
    five grid-level scalar gauges as they were; what it changes is [up] and
    the node metric set. *)
Theorem C5_failure_keeps_grid_scalars (u : Upstream) (e : Exporter) :
  failed (outcome json_Unmarshal u) →
  grid_scalars (refresh json_Unmarshal u e) = grid_scalars e ∧
  refresh json_Unmarshal u e =
    GaugeVec_Reset e_nodeVersion (GaugeVec_Reset e_nodeSessionCount
      (GaugeVec_Reset e_nodeSlotCount (GaugeVec_Reset e_nodeMaxSession
        (GaugeVec_Reset e_nodeStatus (Gauge_Set e_up 0 e))))).
Proof. intros Hf. by rewrite refresh_failed. Qed.

(** After a success and any number of failures, the scalars are those of the
    snapshot of that last success. *)
Lemma failures_keep_last_snapshot_scalars
    (u0 : Upstream) (h : hubResponse.t) (us : list Upstream) (e : Exporter) :
  outcome json_Unmarshal u0 = Snapshot h →
  Forall (λ u, failed (outcome json_Unmarshal u)) us →
  grid_scalars (refreshes json_Unmarshal (u0 :: us) e) = snapshot_scalars h.
Proof.
  intros Hok. induction us as [|u us IH] using rev_ind; intros Hfail.
  - unfold refreshes; simpl. by rewrite (refresh_snapshot _ _ _ Hok).
  - apply Forall_app in Hfail as [Hus Hu]. rewrite Forall_singleton in Hu.
    rewrite app_comm_cons, refreshes_snoc, (refresh_failed u _ Hu). by apply IH.
Qed.

(** C6. The scenario: from a new exporter, one refresh that decodes the
    payload of the specification publishes the values listed there. *)
Theorem C6_concrete_scenario (u : Upstream) (uri : string) :
  outcome json_Unmarshal u = Snapshot payload_4_1_0 →
  refresh json_Unmarshal u (NewExporter uri) =
  mkExporter uri 1 72 24 0 0
    {[ ["4.1.0"] := 1%float ]}
    1
    {[ ["n1"; "http://10.0.1.1:5555"; "UP"] := 1%float ]}
    {[ ["n1"; "http://10.0.1.1:5555"] := 8%float ]}
    {[ ["n1"; "http://10.0.1.1:5555"] := 24%float ]}
    {[ ["n1"; "http://10.0.1.1:5555"] := 0%float ]}
    {[ ["n1"; "http://10.0.1.1:5555"; "4.1.0"] := 1%float ]}.
Proof. intros Hok. rewrite (refresh_snapshot _ _ _ Hok). reflexivity. Qed.

(** C7. Refresh is idempotent on the published state: a second refresh with
    the same upstream outcome changes nothing. *)
Theorem C7_refresh_idempotent (u : Upstream) (e : Exporter) :
  refresh json_Unmarshal u (refresh json_Unmarshal u e) = refresh json_Unmarshal u e.
Proof.
  rewrite !refresh_closed_form.
  destruct (outcome json_Unmarshal u) as [err|partial err|h]; try reflexivity.
  unfold on_snapshot; simpl. by rewrite insert_insert_eq.
Qed.

(** C10. After a refresh that decoded a snapshot, [up], the grid scalars and
    the node metric set do not depend on the state before; the grid version
    label set is the one before with the snapshot's version set to 1, so it
    keeps the keys of earlier refreshes. *)
Theorem C10_success_state_from_payload
    (u : Upstream) (h : hubResponse.t) (e1 e2 : Exporter) :
  outcome json_Unmarshal u = Snapshot h →
  up (refresh json_Unmarshal u e1) = up (refresh json_Unmarshal u e2) ∧
  grid_scalars (refresh json_Unmarshal u e1) = grid_scalars (refresh json_Unmarshal u e2) ∧
  node_metrics (refresh json_Unmarshal u e1) = node_metrics (refresh json_Unmarshal u e2) ∧
  version (refresh json_Unmarshal u e1) =
    <[ [hubResponse.Version (grid_of h)] := 1%float ]> (version e1) ∧
  version (refresh json_Unmarshal u e2) =
    <[ [hubResponse.Version (grid_of h)] := 1%float ]> (version e2).
Proof. intros Hok. by rewrite !(refresh_snapshot _ _ _ Hok). Qed.

(** C8 (as amended). For a response whose body can be read, [fetch] fails
    exactly when the status code is not 200: any other code, 503 or another
    2xx alike, yields the error naming the status, and the refresh then sets
    [up = 0] and empties the node metric set; code 200 yields the body. *)
Theorem C8_fetch_fails_unless_200
    (resp : http.Response) (body : bytes) (s : State) :
  http.ReadAll resp = (body, None) →
  ((run (fetch (Responds resp)) s).1.2 ≠ None ↔ http.StatusCode resp ≠ 200%Z) ∧
  (http.StatusCode resp = 200%Z → (run (fetch (Responds resp)) s).1 = (body, None)) ∧
  (http.StatusCode resp ≠ 200%Z →
     (run (fetch (Responds resp)) s).1 =
       ([], Some ("unexpected HTTP status: " ++ http.Status resp)) ∧
     up (refresh json_Unmarshal (Responds resp) (exporter s)) = 0%float ∧
     node_metrics_empty (refresh json_Unmarshal (Responds resp) (exporter s))).
Proof.
  intros Hread. rewrite (proj1 (run_fetch _ s)).
  destruct (decide (http.StatusCode resp = 200%Z)) as [Hcode|Hcode].
  - assert (Hf : fetched (Responds resp) = (body, None)).
    { unfold fetched; simpl. rewrite bool_decide_false by (by intros []).
      by rewrite Hread. }
    rewrite Hf; simpl. split_and!; [|done|done]. split; [done|]. by intros [].
  - assert (Hf : fetched (Responds resp) =
              ([], Some ("unexpected HTTP status: " ++ http.Status resp))).
    { unfold fetched; simpl. by rewrite bool_decide_true. }
    rewrite Hf; simpl. split_and!; [done|done|]. intros _. split; [done|].
    rewrite refresh_failed; [done|].
    by rewrite (outcome_fetch_error _ _ (f_equal snd Hf)).
Qed.

End Properties.

(** ** The unlocked [Collect] under two callers *)

Lemma interleave_app {X Y} (s1 s2 : list Caller) (a : Prog X) (b : Prog Y) (s : State) :
  interleave (s1 ++ s2)%list a b s =
  let '(a', b', s') := interleave s1 a b s in interleave s2 a' b' s'.
Proof.
  revert a b s. induction s1 as [|c s1 IH]; intros a b s; [done|].
  destruct c; simpl.
  - destruct (step a s) as [a' s']. apply IH.
  - destruct (step b s) as [b' s']. apply IH.
Qed.

Lemma interleave_only_A {X Y} (a : Prog X) (b : Prog Y) (s : State) :
  ∃ n, interleave (replicate n CallerA) a b s = (Ret (run a s).1, b, (run a s).2).
Proof.
  revert s. induction a as [x|g k IH|Z g k IH|en k IH]; intros s.
  - by exists 0.
  - destruct (IH (mkState (g (exporter s)) (logged s))) as [n Hn]. by exists (S n).
  - destruct (IH (g (exporter s)) s) as [n Hn]. by exists (S n).
  - destruct (IH (mkState (exporter s) (logged s ++ [en])%list)) as [n Hn]. by exists (S n).
Qed.

Lemma interleave_only_B {X Y} (a : Prog X) (b : Prog Y) (s : State) :
  ∃ n, interleave (replicate n CallerB) a b s = (a, Ret (run b s).1, (run b s).2).
Proof.
  revert s. induction b as [x|g k IH|Z g k IH|en k IH]; intros s.
  - by exists 0.
  - destruct (IH (mkState (g (exporter s)) (logged s))) as [n Hn]. by exists (S n).
  - destruct (IH (g (exporter s)) s) as [n Hn]. by exists (S n).
  - destruct (IH (mkState (exporter s) (logged s ++ [en])%list)) as [n Hn]. by exists (S n).
Qed.

(** A schedule that lets one caller finish before the other starts gives what
    running the two one after the other gives. *)
Lemma interleave_serial {X Y} (a : Prog X) (b : Prog Y) (s : State) :
  ∃ sched, interleave sched a b s =
    (Ret (run a s).1, Ret (run b (run a s).2).1, (run b (run a s).2).2).
Proof.
  destruct (interleave_only_A a b s) as [n Hn].
  destruct (interleave_only_B (Ret (run a s).1) b (run a s).2) as [m Hm].
  exists (replicate n CallerA ++ replicate m CallerB)%list.
  by rewrite interleave_app, Hn.
Qed.

(** C9 (the code at the failing input). Two concurrent [Collect] calls on one
    exporter, nothing excluding one from the other: under [torn_schedule]
    both return, the writes of the two refreshes are interleaved, and the
    state they leave, which caller A also hands to the exposition, has
    [up = 0] together with a populated node metric set: a state that no
    refresh by a single caller leaves. *)
Theorem C9_unlocked_collects_interleave :
  ∃ outA outB s',
    interleave torn_schedule
      (Collect fixture_Unmarshal upstream_4_1_0)
      (Collect fixture_Unmarshal upstream_refused)
      (mkState (NewExporter grid_local) []) = (Ret outA, Ret outB, s') ∧
    up (exporter s') = 0%float ∧
    nodeStatus (exporter s') !! ["n1"; "http://10.0.1.1:5555"; "UP"] = Some 1%float ∧
    mkMetric "selenium_grid_up" [] 0 ∈ outA ∧
    mkMetric "selenium_node_status" ["n1"; "http://10.0.1.1:5555"; "UP"] 1 ∈ outA ∧
    ∀ json_Unmarshal u e, exporter s' ≠ refresh json_Unmarshal u e.
Proof.
  eexists _, _, _. split; [vm_compute; reflexivity|].
  split; [reflexivity|]. split; [vm_compute; reflexivity|].
  split; [repeat constructor|]. split; [repeat constructor|].
  intros json_Unmarshal u e Heq.
  assert (Hup : up (refresh json_Unmarshal u e) = 0%float) by (by rewrite <- Heq).
  apply refresh_down_has_no_nodes in Hup. rewrite <- Heq in Hup.
  apply (f_equal (λ t, t.1.1.1.1 !! ["n1"; "http://10.0.1.1:5555"; "UP"])) in Hup.
  vm_compute in Hup. discriminate.
Qed.

(** ** The version label set across a version change *)

(** Two successful refreshes add a key each: nothing removes the first. *)
Lemma version_after_two_snapshots json_Unmarshal
    (u1 u2 : Upstream) (h1 h2 : hubResponse.t) (e : Exporter) :
  outcome json_Unmarshal u1 = Snapshot h1 →
  outcome json_Unmarshal u2 = Snapshot h2 →
  version (refreshes json_Unmarshal [u1; u2] e) =
    <[ [hubResponse.Version (grid_of h2)] := 1%float ]>
      (<[ [hubResponse.Version (grid_of h1)] := 1%float ]> (version e)).
Proof.
  intros H1 H2. unfold refreshes; simpl.
  by rewrite (refresh_snapshot _ _ _ _ H2), (refresh_snapshot _ _ _ _ H1).
Qed.

(** C2 (the code at the failing input). From a new exporter, a refresh that
    decodes version 4.1.0 followed by one that decodes version 4.2.0 leaves
    two entries in the grid version label set: the one keyed 4.1.0 is still
    there, at 1, next to the one keyed 4.2.0. *)
Theorem C2_old_version_label_remains :
  version (refreshes fixture_Unmarshal [upstream_4_1_0; upstream_4_2_0]
             (NewExporter grid_local))
    = {[ ["4.1.0"] := 1%float; ["4.2.0"] := 1%float ]} ∧
  size (version (refreshes fixture_Unmarshal [upstream_4_1_0; upstream_4_2_0]
                   (NewExporter grid_local))) = 2 ∧
  version (refreshes fixture_Unmarshal [upstream_4_1_0; upstream_4_2_0]
             (NewExporter grid_local)) !! ["4.1.0"] = Some 1%float.
Proof. split_and!; vm_compute; reflexivity. Qed.

(** ** The claims at concrete inputs *)

(** C1, as stated, fails: the latest refresh failed and the grid version
    label set is not empty. *)
Lemma C1_version_label_survives_failure :
  failed (outcome fixture_Unmarshal upstream_refused) ∧
  version (refreshes fixture_Unmarshal [upstream_4_1_0; upstream_refused]
             (NewExporter grid_local)) ≠ ∅.
Proof.
  split; [exact I|]. intros H.
  apply (f_equal (λ m : gmap (list string) PrimFloat.float, m !! ["4.1.0"])) in H.
  vm_compute in H. discriminate.
Qed.

(** C3, as stated, fails: the fetch step returns an error and the grid
    version label set still holds its entry. *)
Lemma C3_fetch_error_keeps_version_label :
  (fetched upstream_timeout).2 = Some "context deadline exceeded" ∧
  version (refresh fixture_Unmarshal upstream_timeout exporter_at_4_1_0)
    !! ["4.1.0"] = Some 1%float ∧
  version (refresh fixture_Unmarshal upstream_timeout exporter_at_4_1_0) ≠ ∅.
Proof.
  split_and!; [reflexivity|vm_compute; reflexivity|]. intros H.
  apply (f_equal (λ m : gmap (list string) PrimFloat.float, m !! ["4.1.0"])) in H.
  vm_compute in H. discriminate.
Qed.

(** C8, as stated, fails: a response with the 2xx status 201 and a readable
    body makes [fetch] return an error, not the body. *)
Lemma C8_status_201_is_refused :
  (200 ≤ http.StatusCode response_201 < 300)%Z ∧
  http.ReadAll response_201 = (body_4_1_0, None) ∧
  (run (fetch (Responds response_201)) (mkState (NewExporter grid_local) [])).1
    = ([], Some "unexpected HTTP status: 201 Created").
Proof. split_and!; try reflexivity; unfold response_201; simpl; lia. Qed.

(** C3 at a refused connection, from the state holding the scenario's node. *)
Lemma C3_witness :
  up (refresh fixture_Unmarshal upstream_refused exporter_at_4_1_0) = 0%float ∧
  node_metrics_empty (refresh fixture_Unmarshal upstream_refused exporter_at_4_1_0) ∧
  version (refresh fixture_Unmarshal upstream_refused exporter_at_4_1_0)
    = version exporter_at_4_1_0.
Proof.
  apply (C3_fetch_error_clears_node_metrics fixture_Unmarshal upstream_refused
           "connection refused" exporter_at_4_1_0).
  reflexivity.
Defined.

(** C4 at the body [not json], which the table decoder refuses. *)
Lemma C4_witness :
  (∀ u' err', (fetched u').2 = Some err' →
     refresh fixture_Unmarshal upstream_not_json exporter_at_4_1_0 =
     refresh fixture_Unmarshal u' exporter_at_4_1_0) ∧
  up (refresh fixture_Unmarshal upstream_not_json exporter_at_4_1_0) = 0%float ∧
  node_metrics_empty (refresh fixture_Unmarshal upstream_not_json exporter_at_4_1_0) ∧
  grid_scalars (refresh fixture_Unmarshal upstream_not_json exporter_at_4_1_0)
    = grid_scalars exporter_at_4_1_0 ∧
  version (refresh fixture_Unmarshal upstream_not_json exporter_at_4_1_0)
    = version exporter_at_4_1_0.
Proof.
  apply (C4_decode_error_as_fetch_error fixture_Unmarshal upstream_not_json
           hubResponse.zero "invalid character" exporter_at_4_1_0).
  vm_compute. reflexivity.
Defined.

(** C5 at the same undecodable body: the scalars of the scenario stay. *)
Lemma C5_witness :
  failed (outcome fixture_Unmarshal upstream_not_json) ∧
  grid_scalars (refresh fixture_Unmarshal upstream_not_json exporter_at_4_1_0)
    = (72, 24, 0, 0, 1)%float.
Proof.
  split; [exact I|].
  etrans.
  - apply (C5_failure_keeps_grid_scalars fixture_Unmarshal upstream_not_json
             exporter_at_4_1_0). exact I.
  - reflexivity.
Defined.

(** C6 at a 200 response carrying the scenario's body. *)
Lemma C6_witness :
  outcome fixture_Unmarshal upstream_4_1_0 = Snapshot payload_4_1_0 ∧
  up (refresh fixture_Unmarshal upstream_4_1_0 (NewExporter grid_local)) = 1%float ∧
  nodeMaxSession (refresh fixture_Unmarshal upstream_4_1_0 (NewExporter grid_local))
    !! ["n1"; "http://10.0.1.1:5555"] = Some 8%float.
Proof.
  assert (H : outcome fixture_Unmarshal upstream_4_1_0 = Snapshot payload_4_1_0)
    by (vm_compute; reflexivity).
  split; [exact H|].
  rewrite (C6_concrete_scenario fixture_Unmarshal upstream_4_1_0 grid_local H).
  split; [reflexivity|vm_compute; reflexivity].
Defined.

(** C8 at a 503 response. *)
Lemma C8_witness :
  http.ReadAll (http.mkResponse "503 Service Unavailable" 503 ([], None)) = ([], None) ∧
  (run (fetch upstream_503) (mkState exporter_at_4_1_0 [])).1
    = ([], Some "unexpected HTTP status: 503 Service Unavailable") ∧
  up (refresh fixture_Unmarshal upstream_503 exporter_at_4_1_0) = 0%float ∧
  node_metrics_empty (refresh fixture_Unmarshal upstream_503 exporter_at_4_1_0).
Proof.
  split; [reflexivity|].
  apply (C8_fetch_fails_unless_200 fixture_Unmarshal
           (http.mkResponse "503 Service Unavailable" 503 ([], None)) []
           (mkState exporter_at_4_1_0 []) eq_refl).
  simpl. lia.
Defined.

(** C10 at a refresh decoding version 4.2.0, from a new exporter and from one
    that already holds version 4.1.0. *)
Lemma C10_witness :
  outcome fixture_Unmarshal upstream_4_2_0 = Snapshot payload_4_2_0 ∧
  node_metrics (refresh fixture_Unmarshal upstream_4_2_0 (NewExporter grid_local))
    = node_metrics (refresh fixture_Unmarshal upstream_4_2_0 exporter_at_4_1_0) ∧
  version (refresh fixture_Unmarshal upstream_4_2_0 exporter_at_4_1_0)
    = <[ ["4.2.0"] := 1%float ]> (version exporter_at_4_1_0).
Proof.
  assert (H : outcome fixture_Unmarshal upstream_4_2_0 = Snapshot payload_4_2_0)
    by (vm_compute; reflexivity).
  split; [exact H|].
  destruct (C10_success_state_from_payload fixture_Unmarshal upstream_4_2_0
              payload_4_2_0 (NewExporter grid_local) exporter_at_4_1_0 H)
    as (_ & _ & Hnodes & _ & Hversion).
  split; [exact Hnodes|exact Hversion].
Defined.

(** * Further properties of the collector *)

Section Logs.

Variable json_Unmarshal : bytes → hubResponse.t → hubResponse.t * option error.

Lemma run_fetch_logged (u : Upstream) (s : State) :
  logged (run (fetch u) s).2 = (logged s ++ fetch_entries u)%list.
Proof.
  unfold fetch_entries.
  destruct u as [err|err|resp]; simpl; auto.
  destruct (bool_decide _); simpl; auto.
  destruct (http.ReadAll resp) as [body [err|]]; simpl; auto using app_nil_r.
Qed.

Lemma run_for_range_logged {A} (xs : list A) (body : A → Prog unit) :
  (∀ x s, logged (run (body x) s).2 = logged s) →
  ∀ s, logged (run (for_range xs body) s).2 = logged s.
Proof.
  intros Hbody. induction xs as [|x xs IH]; intros s; simpl; [done|].
  by rewrite run_bind, IH, Hbody.
Qed.

(** What one [scrape] appends to the log. *)
Lemma run_scrape_logged (u : Upstream) (s : State) :
  logged (run (scrape json_Unmarshal u) s).2 =
  (logged s ++ fetch_entries u ++
   match outcome json_Unmarshal u with
   | FetchError err =>
       [mkEntry ErrorLevel ("Error scraping Selenium Grid: " ++ err)]
   | DecodeError _ err =>
       [mkEntry InfoLevel "Successfully scraped Selenium Grid";
        mkEntry ErrorLevel ("Error decoding Selenium Grid response: " ++ err)]
   | Snapshot _ =>
       [mkEntry InfoLevel "Successfully scraped Selenium Grid"]
   end)%list.
Proof.
  unfold scrape, outcome.
  rewrite run_bind.
  pose proof (run_fetch_logged u s) as Hlog.
  destruct (run_fetch u s) as [Hres _].
  destruct (run (fetch u) s) as [res s1]. simpl in Hres, Hlog. subst res.
  destruct (fetched u) as [body [err|]]; cbn [fst snd]; cbv beta iota.
  - simpl. by rewrite Hlog, <- app_assoc.
  - destruct (json_Unmarshal body hubResponse.zero) as [h [err|]].
    + simpl. by rewrite Hlog, <- !app_assoc.
    + cbv zeta.
      repeat (rewrite run_bind;
              cbn [run modify logrus_Info logrus_log fst snd exporter logged
                   clear_node_metrics]).
      rewrite run_for_range_logged by reflexivity.
      simpl. by rewrite Hlog, <- app_assoc.
Qed.

Lemma fetch_entries_cases (u : Upstream) :
  match (fetched u).2 with
  | Some _ => (fetched u).1 = [] ∧ ∃ msg, fetch_entries u = [mkEntry ErrorLevel msg]
  | None => fetch_entries u = []
  end.
Proof.
  unfold fetched, fetch_entries.
  destruct u as [err|err|resp]; simpl; eauto.
  destruct (bool_decide _); simpl; eauto.
  destruct (http.ReadAll resp) as [body [err|]]; simpl; eauto.
Qed.

(** X1. [fetch] never touches a metric; it returns an error exactly when it
    logs, and then it logs one entry, at error level, and returns no body. *)
Theorem fetch_logs_once_iff_it_fails (u : Upstream) (s : State) :
  exporter (run (fetch u) s).2 = exporter s ∧
  ∃ new, logged (run (fetch u) s).2 = (logged s ++ new)%list ∧
    match (run (fetch u) s).1.2 with
    | Some _ => (run (fetch u) s).1.1 = [] ∧ ∃ msg, new = [mkEntry ErrorLevel msg]
    | None => new = []
    end.
Proof.
  destruct (run_fetch u s) as [Hres Hexp]. split; [done|].
  exists (fetch_entries u). split; [apply run_fetch_logged|].
  rewrite Hres. apply fetch_entries_cases.
Qed.

(** X2. A 200 response whose body cannot be read to its end is a fetch
    failure: the part that was read is dropped, the decoder's view of it
    plays no role, and the refresh clears as for any failure. *)
Theorem fetch_drops_partly_read_body
    (resp : http.Response) (partial : bytes) (err : error) (e : Exporter) :
  http.StatusCode resp = 200%Z →
  http.ReadAll resp = (partial, Some err) →
  fetched (Responds resp) = ([], Some err) ∧
  outcome json_Unmarshal (Responds resp) = FetchError err ∧
  up (refresh json_Unmarshal (Responds resp) e) = 0%float ∧
  node_metrics_empty (refresh json_Unmarshal (Responds resp) e) ∧
  grid_scalars (refresh json_Unmarshal (Responds resp) e) = grid_scalars e.
Proof.
  intros Hcode Hread.
  assert (Hf : fetched (Responds resp) = ([], Some err)).
  { unfold fetched; simpl. rewrite bool_decide_false by (by intros []).
    by rewrite Hread. }
  assert (Ho : outcome json_Unmarshal (Responds resp) = FetchError err)
    by (by apply outcome_fetch_error; rewrite Hf).
  split_and!; [done|done|..]; rewrite refresh_failed by (by rewrite Ho); done.
Qed.

(** X3. A refresh appends to the log without touching what was logged, and
    it logs at error level exactly when it fails; a refresh that decodes a
    snapshot logs the one line of success and nothing else. *)
Theorem scrape_logs_error_iff_failed (u : Upstream) (s : State) :
  ∃ new, logged (run (scrape json_Unmarshal u) s).2 = (logged s ++ new)%list ∧
    (failed (outcome json_Unmarshal u) ↔ Exists is_error_entry new) ∧
    (¬ failed (outcome json_Unmarshal u) →
       new = [mkEntry InfoLevel "Successfully scraped Selenium Grid"]).
Proof.
  eexists. split; [apply run_scrape_logged|].
  pose proof (fetch_entries_cases u) as Hfe. unfold outcome.
  destruct (fetched u) as [body [err|]]; simpl in *.
  - destruct Hfe as [_ [msg ->]]. split; [|by intros []].
    split; [intros _|done]. by apply Exists_cons_hd.
  - rewrite Hfe. destruct (json_Unmarshal body hubResponse.zero) as [h [err|]]; simpl.
    + split; [|by intros []]. split; [intros _|done].
      apply Exists_cons_tl, Exists_cons_hd. reflexivity.
    + split; [|done]. split; [done|].
      intros [H|H]%Exists_cons; [discriminate H|by apply Exists_nil in H].
Qed.

(** X4. A refresh whose payload does not decode has already logged the line
    of success when it logs the decoding error: the log of a failed refresh
    can say that the scrape succeeded. *)
Theorem decode_error_logged_after_success_line
    (u : Upstream) (partial : hubResponse.t) (err : error) (s : State) :
  outcome json_Unmarshal u = DecodeError partial err →
  logged (run (scrape json_Unmarshal u) s).2 =
  (logged s ++
   [mkEntry InfoLevel "Successfully scraped Selenium Grid";
    mkEntry ErrorLevel ("Error decoding Selenium Grid response: " ++ err)])%list.
Proof.
  intros Ho. rewrite run_scrape_logged, Ho.
  pose proof (fetch_entries_cases u) as Hfe. unfold outcome in Ho.
  destruct (fetched u) as [body [err'|]]; simpl in *; [discriminate|].
  by rewrite Hfe.
Qed.

End Logs.

Section Exposition.

Variable json_Unmarshal : bytes → hubResponse.t → hubResponse.t * option error.

(** [Collect] sends the state its own [scrape] has just left, and its reads
    change nothing. *)
Lemma run_Collect (u : Upstream) (s : State) :
  run (Collect json_Unmarshal u) s =
  (exposition (refresh json_Unmarshal u (exporter s)),
   (run (scrape json_Unmarshal u) s).2).
Proof.
  unfold Collect. rewrite run_bind.
  rewrite <- run_scrape_exporter.
  destruct (run (scrape json_Unmarshal u) s) as [[] s']. reflexivity.
Qed.

Lemma elem_of_vec_metrics (name : string) (vec : gmap (list string) PrimFloat.float)
    (m : Metric) :
  m ∈ vec_metrics name vec ↔
  fqName m = name ∧ vec !! labelValues m = Some (value m).
Proof.
  unfold vec_metrics. rewrite list_elem_of_fmap. split.
  - intros [[lvs v] [-> Hin%elem_of_map_to_list]]. done.
  - intros [Hname Hlook]. exists (labelValues m, value m). split.
    + destruct m; simpl in *. by subst.
    + by apply elem_of_map_to_list.
Qed.

(** The sent metrics, one family at a time. *)
Lemma elem_of_exposition (e : Exporter) (m : Metric) :
  m ∈ exposition e ↔
  m = mkMetric "selenium_grid_up" [] (up e) ∨
  m = mkMetric "selenium_grid_total_slots" [] (totalSlots e) ∨
  m = mkMetric "selenium_grid_max_session" [] (maxSession e) ∨
  m = mkMetric "selenium_grid_session_count" [] (sessionCount e) ∨
  m = mkMetric "selenium_grid_session_queue_size" [] (sessionQueueSize e) ∨
  m = mkMetric "selenium_grid_node_count" [] (nodeCount e) ∨
  (fqName m = "selenium_grid_version" ∧ version e !! labelValues m = Some (value m)) ∨
  (fqName m = "selenium_node_status" ∧ nodeStatus e !! labelValues m = Some (value m)) ∨
  (fqName m = "selenium_node_max_session" ∧
     nodeMaxSession e !! labelValues m = Some (value m)) ∨
  (fqName m = "selenium_node_slot_count" ∧
     nodeSlotCount e !! labelValues m = Some (value m)) ∨
  (fqName m = "selenium_node_session_count" ∧
     nodeSessionCount e !! labelValues m = Some (value m)) ∨
  (fqName m = "selenium_node_version" ∧ nodeVersion e !! labelValues m = Some (value m)).
Proof.
  unfold exposition.
  rewrite !elem_of_app, !list_elem_of_singleton, !elem_of_vec_metrics.
  reflexivity.
Qed.

(** X5. What a failed refresh exposes: [Collect] sends [up] at 0 and no
    metric of the node subsystem, and it still sends the five grid scalars,
    with the values they had before the refresh. *)
Theorem Collect_after_failure (u : Upstream) (s : State) :
  failed (outcome json_Unmarshal u) →
  mkMetric "selenium_grid_up" [] 0 ∈ (run (Collect json_Unmarshal u) s).1 ∧
  (∀ m, m ∈ (run (Collect json_Unmarshal u) s).1 → ¬ is_node_metric m) ∧
  mkMetric "selenium_grid_total_slots" [] (totalSlots (exporter s))
    ∈ (run (Collect json_Unmarshal u) s).1 ∧
  mkMetric "selenium_grid_max_session" [] (maxSession (exporter s))
    ∈ (run (Collect json_Unmarshal u) s).1 ∧
  mkMetric "selenium_grid_session_count" [] (sessionCount (exporter s))
    ∈ (run (Collect json_Unmarshal u) s).1 ∧
  mkMetric "selenium_grid_session_queue_size" [] (sessionQueueSize (exporter s))
    ∈ (run (Collect json_Unmarshal u) s).1 ∧
  mkMetric "selenium_grid_node_count" [] (nodeCount (exporter s))
    ∈ (run (Collect json_Unmarshal u) s).1.
Proof.
  intros Hf. rewrite run_Collect, refresh_failed by done. cbn [fst].
  split_and!; try (apply elem_of_exposition; simpl; tauto).
  intros m Hm%elem_of_exposition Hnode. unfold is_node_metric in Hnode.
  simpl in Hm. rewrite !lookup_empty in Hm.
  rewrite !elem_of_cons, elem_of_nil in Hnode.
  destruct Hm as [->|[->|[->|[->|[->|[->|[[Hn _]|Hm]]]]]]];
    [simpl in Hnode; intuition discriminate..| |].
  - rewrite Hn in Hnode. intuition discriminate.
  - intuition discriminate.
Qed.

End Exposition.

Section Invariants.

Variable json_Unmarshal : bytes → hubResponse.t → hubResponse.t * option error.

Lemma arity_empty (n : nat) : arity n ∅.
Proof. intros lvs v. by rewrite lookup_empty. Qed.

Lemma flags_empty : flags ∅.
Proof. intros lvs v. by rewrite lookup_empty. Qed.

Lemma arity_insert (n : nat) (m : gmap (list string) PrimFloat.float)
    (k : list string) (x : PrimFloat.float) :
  length k = n → arity n m → arity n (<[k := x]> m).
Proof.
  intros Hk Hm lvs v. destruct (decide (k = lvs)) as [<-|Hne].
  - done.
  - rewrite lookup_insert_ne by done. apply Hm.
Qed.

Lemma flags_insert (m : gmap (list string) PrimFloat.float) (k : list string) :
  flags m → flags (<[k := 1%float]> m).
Proof.
  intros Hm lvs v. destruct (decide (k = lvs)) as [<-|Hne].
  - rewrite lookup_insert_eq. by intros [= <-].
  - rewrite lookup_insert_ne by done. apply Hm.
Qed.

Lemma arity_vec_of (n : nat) (key : HubResponseNode.t → list string)
    (val : HubResponseNode.t → PrimFloat.float) (ns : list HubResponseNode.t) :
  (∀ x, length (key x) = n) → arity n (vec_of key val ns ∅).
Proof.
  intros Hkey lvs v. rewrite vec_of_lookup, lookup_empty.
  destruct (last _) as [x|] eqn:Hlast; [|done].
  apply last_Some_elem_of, list_elem_of_filter in Hlast as [<- _]. by intros _.
Qed.

Lemma flags_vec_of (key : HubResponseNode.t → list string) (ns : list HubResponseNode.t) :
  flags (vec_of key (λ _, 1%float) ns ∅).
Proof. intros lvs v Hl. by apply vec_of_flag_lookup in Hl as [-> _]. Qed.

Lemma NewExporter_well_labelled (uri : string) : well_labelled (NewExporter uri).
Proof. unfold well_labelled; simpl. split_and!; auto using arity_empty, flags_empty. Qed.

Lemma refresh_well_labelled (u : Upstream) (e : Exporter) :
  well_labelled e → well_labelled (refresh json_Unmarshal u e).
Proof.
  unfold well_labelled. intros (Hv & _ & _ & _ & _ & _ & Hfv & _ & _).
  rewrite refresh_closed_form.
  destruct (outcome json_Unmarshal u) as [err|partial err|h]; simpl;
    split_and!;
    auto using arity_empty, flags_empty, arity_insert, flags_insert,
               arity_vec_of, flags_vec_of.
Qed.

(** X6. In every state the exporter reaches from [NewExporter] by refreshes,
    whatever their outcomes, each child of each vector has as many label
    values as the vector has label names (1 for the grid version, 3 for node
    status and node version, 2 for the three node counters), and the children
    of the version, node status and node version vectors are at 1. *)
Theorem reachable_states_well_labelled (us : list Upstream) (uri : string) :
  well_labelled (refreshes json_Unmarshal us (NewExporter uri)).
Proof.
  induction us as [|u us IH] using rev_ind.
  - apply NewExporter_well_labelled.
  - rewrite refreshes_snoc. by apply refresh_well_labelled.
Qed.

Lemma Describe_names_NoDup : NoDup (desc_fqName <$> Describe).
Proof. apply (bool_decide_unpack _). vm_compute. exact I. Qed.

Lemma NoDup_fmap_eq {A B} (f : A → B) (l : list A) (x y : A) :
  NoDup (f <$> l) → x ∈ l → y ∈ l → f x = f y → x = y.
Proof.
  induction l as [|a l IH]; [by intros _ ?%elem_of_nil|].
  rewrite fmap_cons, NoDup_cons.
  intros [Ha Hl] [->|Hx]%elem_of_cons [->|Hy]%elem_of_cons Hf; auto.
  - destruct Ha. rewrite Hf. by apply list_elem_of_fmap_2.
  - destruct Ha. rewrite <- Hf. by apply list_elem_of_fmap_2.
Qed.

(** A descriptor of [Describe] with the metric's name and arity is the only
    one with that name. *)
Lemma Describe_lookup (i : nat) (d : Desc) (m : Metric) :
  Describe !! i = Some d →
  desc_fqName d = fqName m →
  length (desc_variableLabels d) = length (labelValues m) →
  ∃ d, d ∈ Describe ∧ desc_fqName d = fqName m ∧
       length (desc_variableLabels d) = length (labelValues m) ∧
       ∀ d', d' ∈ Describe → desc_fqName d' = fqName m → d' = d.
Proof.
  intros Hi Hn Hl. apply list_elem_of_lookup_2 in Hi.
  exists d. split_and!; try done.
  intros d' Hd' Hn'. apply (NoDup_fmap_eq desc_fqName Describe);
    auto using Describe_names_NoDup. congruence.
Qed.

(** X7. [Collect] agrees with [Describe]: in every state reached from
    [NewExporter], each metric [Collect] sends has exactly one descriptor
    among those [Describe] sends, of the same name, and carries as many label
    values as that descriptor has label names. *)
Theorem Collect_agrees_with_Describe
    (us : list Upstream) (u : Upstream) (uri : string) (l : list Entry) (m : Metric) :
  m ∈ (run (Collect json_Unmarshal u)
         (mkState (refreshes json_Unmarshal us (NewExporter uri)) l)).1 →
  ∃ d, d ∈ Describe ∧ desc_fqName d = fqName m ∧
       length (desc_variableLabels d) = length (labelValues m) ∧
       ∀ d', d' ∈ Describe → desc_fqName d' = fqName m → d' = d.
Proof.
  rewrite run_Collect. cbn [fst exporter]. rewrite <- refreshes_snoc.
  pose proof (reachable_states_well_labelled (us ++ [u]) uri) as Hwl.
  revert Hwl. generalize (refreshes json_Unmarshal (us ++ [u]) (NewExporter uri)).
  intros e (Hv & Hs & Hm & Hsl & Hse & Hnv & _) Hin%elem_of_exposition.
  destruct Hin as [->|[->|[->|[->|[->|[->|[[Hn Hl]|[[Hn Hl]|[[Hn Hl]|[[Hn Hl]|[[Hn Hl]|[Hn Hl]]]]]]]]]]]].
  - by eapply (Describe_lookup 0).
  - by eapply (Describe_lookup 1).
  - by eapply (Describe_lookup 2).
  - by eapply (Describe_lookup 3).
  - by eapply (Describe_lookup 4).
  - by eapply (Describe_lookup 5).
  - eapply (Describe_lookup 6); [done|by rewrite Hn|]. by rewrite (Hv _ _ Hl).
  - eapply (Describe_lookup 7); [done|by rewrite Hn|]. by rewrite (Hs _ _ Hl).
  - eapply (Describe_lookup 8); [done|by rewrite Hn|]. by rewrite (Hm _ _ Hl).
  - eapply (Describe_lookup 9); [done|by rewrite Hn|]. by rewrite (Hsl _ _ Hl).
  - eapply (Describe_lookup 10); [done|by rewrite Hn|]. by rewrite (Hse _ _ Hl).
  - eapply (Describe_lookup 11); [done|by rewrite Hn|]. by rewrite (Hnv _ _ Hl).
Qed.

End Invariants.

Section Snapshots.

Variable json_Unmarshal : bytes → hubResponse.t → hubResponse.t * option error.

(** X8. [up] tells how the latest refresh went, whatever came before: it is
    1 exactly when that refresh decoded a snapshot and 0 exactly when it
    failed. *)
Theorem up_tells_latest_outcome (us : list Upstream) (u : Upstream) (e0 : Exporter) :
  (up (refreshes json_Unmarshal (us ++ [u]) e0) = 1%float ↔
     ¬ failed (outcome json_Unmarshal u)) ∧
  (up (refreshes json_Unmarshal (us ++ [u]) e0) = 0%float ↔
     failed (outcome json_Unmarshal u)).
Proof.
  rewrite refreshes_snoc, refresh_closed_form.
  destruct (outcome json_Unmarshal u) as [err|partial err|h]; simpl;
    split; split; intros H;
    first [ done | by destruct H | by intros []
          | by apply float_one_ne_zero in H
          | by apply symmetry, float_one_ne_zero in H ].
Qed.

Lemma filter_none {A} (P : A → Prop) `{!∀ x, Decision (P x)} (l : list A) :
  Forall (λ x, ¬ P x) l → filter P l = [].
Proof.
  induction 1 as [|x l Hx _ IH]; [done|]. by rewrite filter_cons_False.
Qed.

Lemma last_with_last (ns1 ns2 : list HubResponseNode.t) (n : HubResponseNode.t) :
  Forall (λ n', key2 n' ≠ key2 n) ns2 →
  last_with (ns1 ++ n :: ns2) (key2 n) = Some n.
Proof.
  intros Hns2. unfold last_with, key2 in *.
  rewrite filter_app, filter_cons_True by done.
  rewrite (filter_none _ ns2 Hns2). apply last_snoc.
Qed.

(** X9. When a snapshot reports a pair (id, uri) more than once, the three
    counters published for the pair are those of the last node reporting it,
    while each status any of them reports keeps a child of its own, at 1. *)
Theorem repeated_pair_last_counters_win
    (u : Upstream) (h : hubResponse.t)
    (ns1 ns2 : list HubResponseNode.t) (n : HubResponseNode.t) (e : Exporter) :
  outcome json_Unmarshal u = Snapshot h →
  nodes_of h = (ns1 ++ n :: ns2)%list →
  Forall (λ n', key2 n' ≠ key2 n) ns2 →
  nodeMaxSession (refresh json_Unmarshal u e) !! key2 n
    = Some (HubResponseNode.MaxSession n) ∧
  nodeSlotCount (refresh json_Unmarshal u e) !! key2 n
    = Some (HubResponseNode.SlotCount n) ∧
  nodeSessionCount (refresh json_Unmarshal u e) !! key2 n
    = Some (HubResponseNode.SessionCount n) ∧
  ∀ n', n' ∈ nodes_of h →
    nodeStatus (refresh json_Unmarshal u e) !! key_status n' = Some 1%float.
Proof.
  intros Ho Hns Hlast. rewrite (refresh_snapshot _ _ _ _ Ho).
  unfold on_snapshot; simpl.
  rewrite !vec_of_counter_lookup, Hns, last_with_last by done.
  split_and!; try done.
  intros n' Hn'. apply vec_of_flag_lookup. split; [done|].
  by exists n'.
Qed.

(** X10. A snapshot without nodes is still a success: the node metric set is
    empty after a decoded snapshot exactly when the snapshot lists no node,
    [up] is 1 all the same, and [nodeCount] is the grid's own counter,
    which nothing compares with the number of nodes listed. *)
Theorem node_metrics_empty_iff_no_nodes
    (u : Upstream) (h : hubResponse.t) (e : Exporter) :
  outcome json_Unmarshal u = Snapshot h →
  (node_metrics_empty (refresh json_Unmarshal u e) ↔ nodes_of h = []) ∧
  up (refresh json_Unmarshal u e) = 1%float ∧
  nodeCount (refresh json_Unmarshal u e) = hubResponse.NodeCount (grid_of h).
Proof.
  intros Ho. rewrite (refresh_snapshot _ _ _ _ Ho).
  split_and!; try done. unfold node_metrics_empty, node_metrics, on_snapshot; simpl.
  split.
  - intros [= Hs _ _ _ _]. destruct (nodes_of h) as [|n ns] eqn:Hns using rev_ind; [done|].
    clear IHns. apply (f_equal (λ m, m !! key_status n)) in Hs.
    rewrite lookup_empty in Hs.
    assert (vec_of key_status (λ _, 1%float) (ns ++ [n]) ∅ !! key_status n = Some 1%float)
      as Hn; [|congruence].
    apply vec_of_flag_lookup. split; [done|]. exists n. split; [|done].
    apply elem_of_app. right. by apply list_elem_of_singleton.
  - by intros ->.
Qed.

Lemma NoDup_fmap_refine {A B C} (f : A → B) (g : A → C) (l : list A) :
  (∀ x y, f x = f y → g x = g y) → NoDup (g <$> l) → NoDup (f <$> l).
Proof.
  intros Hfg. induction l as [|a l IH]; [intros _; constructor|].
  rewrite !fmap_cons, !NoDup_cons. intros [Ha Hl]. split; [|by apply IH].
  intros (y & Hy & Hin)%list_elem_of_fmap. apply Ha.
  rewrite (Hfg _ _ Hy). by apply list_elem_of_fmap_2.
Qed.

Lemma size_vec_of (key : HubResponseNode.t → list string)
    (val : HubResponseNode.t → PrimFloat.float) (ns : list HubResponseNode.t) :
  NoDup (key <$> ns) → size (vec_of key val ns ∅) = length ns.
Proof.
  induction ns as [|n ns IH] using rev_ind; [done|].
  rewrite fmap_app, NoDup_app. intros (Hns & Hn & _).
  unfold vec_of in *. rewrite foldl_snoc, length_app, map_size_insert_None.
  - rewrite IH by done. simpl. lia.
  - fold (vec_of key val ns ∅). rewrite vec_of_lookup, lookup_empty.
    destruct (last _) as [x|] eqn:Hlast; [|done].
    apply last_Some_elem_of, list_elem_of_filter in Hlast as [Hk Hin].
    destruct (Hn (key x)); [by apply list_elem_of_fmap_2|].
    rewrite Hk. by apply list_elem_of_singleton.
Qed.

(** X11. When the pairs (id, uri) of a snapshot are pairwise distinct, each of
    the five node vectors holds exactly one child per node listed. *)
Theorem one_child_per_node (u : Upstream) (h : hubResponse.t) (e : Exporter) :
  outcome json_Unmarshal u = Snapshot h →
  NoDup (key2 <$> nodes_of h) →
  size (nodeStatus (refresh json_Unmarshal u e)) = length (nodes_of h) ∧
  size (nodeMaxSession (refresh json_Unmarshal u e)) = length (nodes_of h) ∧
  size (nodeSlotCount (refresh json_Unmarshal u e)) = length (nodes_of h) ∧
  size (nodeSessionCount (refresh json_Unmarshal u e)) = length (nodes_of h) ∧
  size (nodeVersion (refresh json_Unmarshal u e)) = length (nodes_of h).
Proof.
  intros Ho Hnd. rewrite (refresh_snapshot _ _ _ _ Ho). unfold on_snapshot; simpl.
  split_and!; apply size_vec_of; try done.
  - apply (NoDup_fmap_refine _ key2); [|done].
    unfold key_status, key2. by intros x y [= -> -> _].
  - apply (NoDup_fmap_refine _ key2); [|done].
    unfold key_version, key2. by intros x y [= -> -> _].
Qed.

Lemma snapshots_snoc (us : list Upstream) (u : Upstream) :
  snapshots json_Unmarshal (us ++ [u]) =
  (snapshots json_Unmarshal us ++
   match outcome json_Unmarshal u with Snapshot h => [h] | _ => [] end)%list.
Proof.
  unfold snapshots. rewrite omap_app. f_equal. simpl.
  by destruct (outcome json_Unmarshal u).
Qed.

(** X12. After any sequence of refreshes the five grid scalars are those of
    the last snapshot the sequence decoded, however many failures followed
    it, and those of the state before when it decoded none. *)
Theorem scalars_follow_last_snapshot (us : list Upstream) (e : Exporter) :
  grid_scalars (refreshes json_Unmarshal us e) =
  match last (snapshots json_Unmarshal us) with
  | Some h => snapshot_scalars h
  | None => grid_scalars e
  end.
Proof.
  induction us as [|u us IH] using rev_ind; [done|].
  rewrite refreshes_snoc, snapshots_snoc, refresh_closed_form.
  destruct (outcome json_Unmarshal u) as [err|partial err|h].
  - by rewrite app_nil_r.
  - by rewrite app_nil_r.
  - by rewrite last_snoc.
Qed.

(** X13. The grid version label set only grows: after any sequence of
    refreshes its keys are those it had before together with the version of
    every snapshot the sequence decoded, each of these at 1; no refresh,
    failed or not, removes a key. *)
Theorem version_labels_accumulate (us : list Upstream) (e : Exporter) (lvs : list string) :
  (is_Some (version (refreshes json_Unmarshal us e) !! lvs) ↔
     is_Some (version e !! lvs) ∨
     ∃ h, h ∈ snapshots json_Unmarshal us ∧ lvs = [hubResponse.Version (grid_of h)]) ∧
  ((∃ h, h ∈ snapshots json_Unmarshal us ∧ lvs = [hubResponse.Version (grid_of h)]) →
     version (refreshes json_Unmarshal us e) !! lvs = Some 1%float).
Proof.
  induction us as [|u us [IHk IHv]] using rev_ind.
  - split; [|by intros (h & ?%elem_of_nil & _)].
    split; [by left|]. by intros [?|(h & ?%elem_of_nil & _)].
  - rewrite refreshes_snoc, snapshots_snoc, refresh_closed_form.
    destruct (outcome json_Unmarshal u) as [err|partial err|h]; simpl;
      rewrite ?app_nil_r; [done|done|].
    destruct (decide ([hubResponse.Version (grid_of h)] = lvs)) as [<-|Hne].
    + rewrite lookup_insert_eq. split; [|done]. split; [|by eauto].
      intros _. right. exists h. split; [|done].
      apply elem_of_app. right. by apply list_elem_of_singleton.
    + rewrite lookup_insert_ne by done.
      assert ((∃ h0, h0 ∈ (snapshots json_Unmarshal us ++ [h])%list ∧
                 lvs = [hubResponse.Version (grid_of h0)]) ↔
              (∃ h0, h0 ∈ snapshots json_Unmarshal us ∧
                 lvs = [hubResponse.Version (grid_of h0)])) as ->; [|done].
      split; intros (h0 & Hin & ->).
      * apply elem_of_app in Hin as [Hin|Hin%list_elem_of_singleton]; [eauto|by subst].
      * exists h0. split; [|done]. apply elem_of_app. by left.
Qed.

End Snapshots.

(** ** What no schedule of two callers can break *)

Section Schedules.

Variable json_Unmarshal : bytes → hubResponse.t → hubResponse.t * option error.

Lemma safe_bind {A B} (I : Exporter → Prop) (Q' : A → Prop) (Q : B → Prop)
    (m : Prog A) (f : A → Prog B) :
  safe I Q' m → (∀ a, Q' a → safe I Q (f a)) → safe I Q (m ≫= f).
Proof.
  intros Hm Hf. induction m as [a|g k IH|X g k IH|en k IH]; simpl in *.
  - by apply Hf.
  - destruct Hm. split; [done|]. by apply IH.
  - intros e He. apply IH. by apply Hm.
  - by apply IH.
Qed.

Lemma safe_for_range {A} (I : Exporter → Prop) (xs : list A) (body : A → Prog unit) :
  (∀ x, safe I (λ _, True) (body x)) → safe I (λ _, True) (for_range xs body).
Proof.
  intros Hbody. induction xs as [|x xs IH]; simpl; [done|].
  apply (safe_bind I (λ _, True)); auto.
Qed.

Lemma safe_step {A} (I : Exporter → Prop) (Q : A → Prop) (p : Prog A) (s : State) :
  I (exporter s) → safe I Q p →
  I (exporter (step p s).2) ∧ safe I Q (step p s).1.
Proof.
  intros Hs Hp. destruct p as [a|g k|X g k|en k]; simpl in *; try done.
  - destruct Hp. auto.
  - auto.
Qed.

Lemma safe_interleave {X Y} (I : Exporter → Prop) (QA : X → Prop) (QB : Y → Prop)
    (sched : list Caller) (a : Prog X) (b : Prog Y) (s : State) :
  I (exporter s) → safe I QA a → safe I QB b →
  I (exporter (interleave sched a b s).2) ∧
  safe I QA (interleave sched a b s).1.1 ∧
  safe I QB (interleave sched a b s).1.2.
Proof.
  revert a b s. induction sched as [|c sched IH]; intros a b s Hs Ha Hb; [done|].
  destruct c; simpl.
  - destruct (safe_step I QA a s Hs Ha) as [Hs' Ha'].
    destruct (step a s) as [a' s']. by apply IH.
  - destruct (safe_step I QB b s Hs Hb) as [Hs' Hb'].
    destruct (step b s) as [b' s']. by apply IH.
Qed.

Lemma safe_fetch (I : Exporter → Prop) (u : Upstream) : safe I (λ _, True) (fetch u).
Proof.
  destruct u as [err|err|resp]; simpl; try done.
  destruct (bool_decide _); simpl; [done|].
  by destruct (http.ReadAll resp) as [body [err|]].
Qed.

(** Each metric operation of the collector keeps [well_labelled]. *)
Ltac keeps_well_labelled :=
  let e := fresh "e" in
  intros e (?&?&?&?&?&?&?&?&?); unfold well_labelled; simpl;
  split_and!; auto using arity_empty, flags_empty, arity_insert, flags_insert.

Lemma safe_scrape (u : Upstream) :
  safe well_labelled (λ _, True) (scrape json_Unmarshal u).
Proof.
  unfold scrape. apply (safe_bind _ (λ _, True)); [apply safe_fetch|].
  intros [body [err|]] _.
  - simpl. split_and!; try done; keeps_well_labelled.
  - destruct (json_Unmarshal body hubResponse.zero) as [h [err|]].
    + simpl. split_and!; try done; keeps_well_labelled.
    + cbv zeta.
      repeat (first
        [ apply (safe_bind _ (λ _, True));
            [simpl; split_and?; try done | intros _ _]
        | apply safe_for_range; intros n; simpl; split_and!; try done ]);
        keeps_well_labelled.
Qed.

Lemma safe_send (I : Exporter → Prop) (name : string) (g : Field PrimFloat.float) :
  safe I (family name 0) (send name g).
Proof. intros e _ m Hm%list_elem_of_singleton. by subst. Qed.

Lemma safe_GaugeVec_Collect (name : string) (n : nat)
    (vec : Field (gmap (list string) PrimFloat.float)) :
  (∀ e, well_labelled e → arity n (get vec e)) →
  safe well_labelled (family name n) (GaugeVec_Collect name vec).
Proof.
  intros Hvec e He m Hm. apply elem_of_vec_metrics in Hm as [Hn Hl].
  split; [done|]. by apply (Hvec e He _ _ Hl).
Qed.

Lemma family_described (i : nat) (d : Desc) (name : string) (n : nat) (out : list Metric) :
  Describe !! i = Some d → desc_fqName d = name →
  length (desc_variableLabels d) = n → family name n out → described out.
Proof.
  intros Hi Hname Hlen Hout m Hm. destruct (Hout m Hm) as [Hn Hl].
  exists d. split_and!; [by eapply list_elem_of_lookup_2|congruence|congruence].
Qed.

Lemma described_app (out1 out2 : list Metric) :
  described out1 → described out2 → described (out1 ++ out2).
Proof. intros H1 H2 m [?|?]%elem_of_app; auto. Qed.

Lemma safe_Collect (u : Upstream) :
  safe well_labelled described (Collect json_Unmarshal u).
Proof.
  unfold Collect.
  apply (safe_bind _ (λ _, True)); [apply safe_scrape|]. intros _ _.
  eapply safe_bind; [apply safe_send|]. intros m1 H1.
  eapply safe_bind; [apply safe_send|]. intros m2 H2.
  eapply safe_bind; [apply safe_send|]. intros m3 H3.
  eapply safe_bind; [apply safe_send|]. intros m4 H4.
  eapply safe_bind; [apply safe_send|]. intros m5 H5.
  eapply safe_bind; [apply safe_send|]. intros m6 H6.
  eapply safe_bind;
    [apply (safe_GaugeVec_Collect _ 1); by intros e (?&?&?&?&?&?&?)|]. intros m7 H7.
  eapply safe_bind;
    [apply (safe_GaugeVec_Collect _ 3); by intros e (?&?&?&?&?&?&?)|]. intros m8 H8.
  eapply safe_bind;
    [apply (safe_GaugeVec_Collect _ 2); by intros e (?&?&?&?&?&?&?)|]. intros m9 H9.
  eapply safe_bind;
    [apply (safe_GaugeVec_Collect _ 2); by intros e (?&?&?&?&?&?&?)|]. intros m10 H10.
  eapply safe_bind;
    [apply (safe_GaugeVec_Collect _ 2); by intros e (?&?&?&?&?&?&?)|]. intros m11 H11.
  eapply safe_bind;
    [apply (safe_GaugeVec_Collect _ 3); by intros e (?&?&?&?&?&?&?)|]. intros m12 H12.
  simpl. repeat apply described_app.
  - by eapply (family_described 0).
  - by eapply (family_described 1).
  - by eapply (family_described 2).
  - by eapply (family_described 3).
  - by eapply (family_described 4).
  - by eapply (family_described 5).
  - by eapply (family_described 6).
  - by eapply (family_described 7).
  - by eapply (family_described 8).
  - by eapply (family_described 9).
  - by eapply (family_described 10).
  - by eapply (family_described 11).
Qed.

(** X14. Under every schedule of two concurrent [Collect] calls, from a state
    in which every vector child has the arity of its vector: every state on
    the way has it too, and whatever either caller has sent when it returns
    is of the families [Describe] declares, with the declared number of
    labels.  An interleaving can mix two refreshes; it cannot produce a
    metric the registry has no descriptor for. *)
Theorem interleaved_Collects_stay_described
    (sched : list Caller) (uA uB : Upstream) (s : State) :
  well_labelled (exporter s) →
  well_labelled
    (exporter (interleave sched (Collect json_Unmarshal uA)
                 (Collect json_Unmarshal uB) s).2) ∧
  (∀ out, (interleave sched (Collect json_Unmarshal uA)
             (Collect json_Unmarshal uB) s).1.1 = Ret out → described out) ∧
  (∀ out, (interleave sched (Collect json_Unmarshal uA)
             (Collect json_Unmarshal uB) s).1.2 = Ret out → described out).
Proof.
  intros Hs.
  destruct (safe_interleave well_labelled described described sched
              (Collect json_Unmarshal uA) (Collect json_Unmarshal uB) s Hs
              (safe_Collect uA) (safe_Collect uB)) as (Hs' & Ha & Hb).
  split_and!; [done|..]; intros out Hout.
  - by rewrite Hout in Ha.
  - by rewrite Hout in Hb.
Qed.

End Schedules.

(** ** The further properties at concrete inputs *)

(** X2 at a 200 response cut off while its body is read. *)
Lemma X2_witness :
  fetched (Responds response_cut) = ([], Some "unexpected EOF") ∧
  outcome nodes_Unmarshal (Responds response_cut) = FetchError "unexpected EOF" ∧
  up (refresh nodes_Unmarshal (Responds response_cut) exporter_at_4_1_0) = 0%float ∧
  node_metrics_empty (refresh nodes_Unmarshal (Responds response_cut) exporter_at_4_1_0) ∧
  grid_scalars (refresh nodes_Unmarshal (Responds response_cut) exporter_at_4_1_0)
    = grid_scalars exporter_at_4_1_0.
Proof.
  apply (fetch_drops_partly_read_body nodes_Unmarshal response_cut body_AB
           "unexpected EOF" exporter_at_4_1_0); reflexivity.
Defined.

(** X4 at the body [not json]. *)
Lemma X4_witness :
  logged (run (scrape fixture_Unmarshal upstream_not_json)
            (mkState (NewExporter grid_local) [])).2 =
  [mkEntry InfoLevel "Successfully scraped Selenium Grid";
   mkEntry ErrorLevel "Error decoding Selenium Grid response: invalid character"].
Proof.
  apply (decode_error_logged_after_success_line fixture_Unmarshal upstream_not_json
           hubResponse.zero "invalid character" (mkState (NewExporter grid_local) [])).
  vm_compute. reflexivity.
Defined.

(** X5 at a refused connection, after the scenario's refresh. *)
Lemma X5_witness :
  mkMetric "selenium_grid_up" [] 0
    ∈ (run (Collect fixture_Unmarshal upstream_refused) (mkState exporter_at_4_1_0 [])).1 ∧
  mkMetric "selenium_grid_total_slots" [] 72
    ∈ (run (Collect fixture_Unmarshal upstream_refused) (mkState exporter_at_4_1_0 [])).1.
Proof.
  destruct (Collect_after_failure fixture_Unmarshal upstream_refused
              (mkState exporter_at_4_1_0 []) I) as (Hup & _ & Hslots & _).
  split; [exact Hup|exact Hslots].
Defined.

(** X7 at the node status metric of the scenario, sent by a [Collect] that
    follows a failed refresh. *)
Lemma X7_witness :
  ∃ d, d ∈ Describe ∧ desc_fqName d = "selenium_node_status" ∧
       length (desc_variableLabels d) = 3 ∧
       ∀ d', d' ∈ Describe → desc_fqName d' = "selenium_node_status" → d' = d.
Proof.
  apply (Collect_agrees_with_Describe fixture_Unmarshal [upstream_refused]
           upstream_4_1_0 grid_local []
           (mkMetric "selenium_node_status" ["n1"; "http://10.0.1.1:5555"; "UP"] 1)).
  vm_compute. repeat constructor.
Defined.

(** X9 at a snapshot listing node A twice, the second time draining. *)
Lemma X9_witness :
  nodeSessionCount (refresh nodes_Unmarshal upstream_AA (NewExporter grid_local))
    !! ["A"; "http://10.0.1.1:5555"] = Some 5%float ∧
  nodeStatus (refresh nodes_Unmarshal upstream_AA (NewExporter grid_local))
    !! ["A"; "http://10.0.1.1:5555"; "UP"] = Some 1%float ∧
  nodeStatus (refresh nodes_Unmarshal upstream_AA (NewExporter grid_local))
    !! ["A"; "http://10.0.1.1:5555"; "DRAINING"] = Some 1%float.
Proof.
  destruct (repeated_pair_last_counters_win nodes_Unmarshal upstream_AA
              (payload_of [node_A; node_A_draining]) [node_A] [] node_A_draining
              (NewExporter grid_local))
    as (_ & _ & Hsessions & Hstatus).
  - vm_compute. reflexivity.
  - reflexivity.
  - constructor.
  - split; [exact Hsessions|].
    split; [apply (Hstatus node_A)|apply (Hstatus node_A_draining)];
      vm_compute; repeat constructor.
Defined.

(** X10 at a snapshot that lists no node, after one that listed A and B. *)
Lemma X10_witness :
  node_metrics_empty
    (refresh nodes_Unmarshal upstream_none
       (refresh nodes_Unmarshal upstream_AB (NewExporter grid_local))) ∧
  up (refresh nodes_Unmarshal upstream_none
        (refresh nodes_Unmarshal upstream_AB (NewExporter grid_local))) = 1%float ∧
  nodeCount (refresh nodes_Unmarshal upstream_none
        (refresh nodes_Unmarshal upstream_AB (NewExporter grid_local))) = 2%float.
Proof.
  destruct (node_metrics_empty_iff_no_nodes nodes_Unmarshal upstream_none
              (payload_of [])
              (refresh nodes_Unmarshal upstream_AB (NewExporter grid_local)))
    as (Hempty & Hup & Hcount).
  - vm_compute. reflexivity.
  - split; [by apply Hempty|]. split; [exact Hup|exact Hcount].
Defined.

(** X11 at a snapshot listing A and B. *)
Lemma X11_witness :
  size (nodeStatus (refresh nodes_Unmarshal upstream_AB (NewExporter grid_local))) = 2 ∧
  size (nodeMaxSession (refresh nodes_Unmarshal upstream_AB (NewExporter grid_local))) = 2.
Proof.
  destruct (one_child_per_node nodes_Unmarshal upstream_AB
              (payload_of [node_A; node_B]) (NewExporter grid_local))
    as (Hstatus & Hmax & _).
  - vm_compute. reflexivity.
  - apply (bool_decide_unpack _). vm_compute. exact I.
  - split; [exact Hstatus|exact Hmax].
Defined.

(** X14 at the schedule that tears the state: what caller A has sent is
    described all the same. *)
Lemma X14_witness :
  well_labelled
    (exporter (interleave torn_schedule (Collect fixture_Unmarshal upstream_4_1_0)
                 (Collect fixture_Unmarshal upstream_refused)
                 (mkState (NewExporter grid_local) [])).2) ∧
  ∀ out, (interleave torn_schedule (Collect fixture_Unmarshal upstream_4_1_0)
            (Collect fixture_Unmarshal upstream_refused)
            (mkState (NewExporter grid_local) [])).1.1 = Ret out → described out.
Proof.
  destruct (interleaved_Collects_stay_described fixture_Unmarshal torn_schedule
              upstream_4_1_0 upstream_refused (mkState (NewExporter grid_local) [])
              (NewExporter_well_labelled grid_local))
    as (Hstate & HA & _).
  split; [exact Hstate|exact HA].
Defined.

(** * Properties of the earlier exporter *)

Section LegacyProperties.

Variable json_Unmarshal : bytes → hubResponse.t → hubResponse.t * option error.

Lemma Legacy_run_bind {A B} (m : Legacy.Prog A) (f : A → Legacy.Prog B) (s : Legacy.State) :
  Legacy.run (m ≫= f) s = Legacy.run (f (Legacy.run m s).1) (Legacy.run m s).2.
Proof.
  revert s. induction m as [a|g k IH|X g k IH|en k IH|line k IH|k IH|k IH];
    intros s; simpl; auto.
Qed.

Lemma Legacy_run_fetch (u : Upstream) (s : Legacy.State) :
  (Legacy.run (Legacy.fetch u) s).1 = Legacy.fetched u ∧
  Legacy.exporter (Legacy.run (Legacy.fetch u) s).2 = Legacy.exporter s.
Proof. unfold Legacy.fetched. by destruct u. Qed.

Lemma Legacy_run_for_range {A} (xs : list A) (body : A → Legacy.Prog unit)
    (f : A → Exporter → Exporter) :
  (∀ x s, Legacy.exporter (Legacy.run (body x) s).2 = f x (Legacy.exporter s)) →
  ∀ s, Legacy.exporter (Legacy.run (Legacy.for_range xs body) s).2 =
       foldl (λ e x, f x e) (Legacy.exporter s) xs.
Proof.
  intros Hbody. induction xs as [|x xs IH]; intros s; simpl; [done|].
  by rewrite Legacy_run_bind, IH, Hbody.
Qed.

Lemma Legacy_publish_nodes_fields (ns : list HubResponseNode.t) (e : Exporter) :
  foldl (λ e n, Legacy.publish_node n e) e ns =
  mkExporter (URI e) (up e) (totalSlots e) (maxSession e) (sessionCount e)
    (sessionQueueSize e) (version e) (nodeCount e)
    (Legacy.vec_add key_status (λ _, 1%float) ns (nodeStatus e))
    (Legacy.vec_add key2 HubResponseNode.MaxSession ns (nodeMaxSession e))
    (Legacy.vec_add key2 HubResponseNode.SlotCount ns (nodeSlotCount e))
    (Legacy.vec_add key2 HubResponseNode.SessionCount ns (nodeSessionCount e))
    (Legacy.vec_add key_version (λ _, 1%float) ns (nodeVersion e)).
Proof.
  revert e. induction ns as [|n ns IH]; intros e; [by destruct e|].
  simpl. rewrite IH. reflexivity.
Qed.

(** One refresh of the earlier exporter, in closed form. *)
Lemma Legacy_refresh_closed_form (u : Upstream) (e : Exporter) :
  Legacy.refresh json_Unmarshal u e =
  match Legacy.outcome json_Unmarshal u with
  | FetchError _ => mkExporter (URI e) 0 0 0 0 0 ∅ 0 ∅ ∅ ∅ ∅ ∅
  | DecodeError _ _ => mkExporter (URI e) 1 0 0 0 0 ∅ 0 ∅ ∅ ∅ ∅ ∅
  | Snapshot h =>
      mkExporter (URI e) 1
        (hubResponse.TotalSlots (grid_of h)) (hubResponse.MaxSession (grid_of h))
        (hubResponse.SessionCount (grid_of h)) (hubResponse.SessionQueueSize (grid_of h))
        {[ [hubResponse.Version (grid_of h)] := 1%float ]}
        (hubResponse.NodeCount (grid_of h))
        (Legacy.vec_add key_status (λ _, 1%float) (nodes_of h) ∅)
        (Legacy.vec_add key2 HubResponseNode.MaxSession (nodes_of h) ∅)
        (Legacy.vec_add key2 HubResponseNode.SlotCount (nodes_of h) ∅)
        (Legacy.vec_add key2 HubResponseNode.SessionCount (nodes_of h) ∅)
        (Legacy.vec_add key_version (λ _, 1%float) (nodes_of h) ∅)
  end.
Proof.
  unfold Legacy.refresh, Legacy.scrape, Legacy.outcome.
  repeat (rewrite Legacy_run_bind; cbn [Legacy.run Legacy.modify fst snd]).
  set (s0 := Legacy.with_exporter _ _).
  destruct (Legacy_run_fetch u s0) as [Hres Hexp].
  destruct (Legacy.run (Legacy.fetch u) s0) as [res s1]. simpl in Hres, Hexp. subst res.
  destruct (Legacy.fetched u) as [body [err|]]; cbn [fst snd]; cbv beta iota.
  - simpl. rewrite Hexp. reflexivity.
  - destruct (json_Unmarshal body hubResponse.zero) as [h [err|]].
    + simpl. rewrite Hexp. reflexivity.
    + cbv zeta.
      repeat (rewrite Legacy_run_bind; cbn [Legacy.run Legacy.modify fst snd]).
      rewrite (Legacy_run_for_range _ _ Legacy.publish_node) by reflexivity.
      rewrite Legacy_publish_nodes_fields. simpl. rewrite Hexp. reflexivity.
Qed.

Lemma Legacy_vec_add_lookup (key : HubResponseNode.t → list string)
    (val : HubResponseNode.t → PrimFloat.float) (ns : list HubResponseNode.t)
    (m : gmap (list string) PrimFloat.float) (lvs : list string) :
  Legacy.vec_add key val ns m !! lvs =
  match filter (λ n, key n = lvs) ns with
  | [] => m !! lvs
  | l => Some (foldl (λ acc n, (acc + val n)%float) (default 0%float (m !! lvs)) l)
  end.
Proof.
  revert m. induction ns as [|n ns IH]; intros m; [done|].
  unfold Legacy.vec_add in *. simpl foldl. rewrite IH, filter_cons.
  destruct (decide (key n = lvs)) as [<-|Hne].
  - rewrite lookup_insert_eq. by destruct (filter _ ns).
  - rewrite lookup_insert_ne by done. done.
Qed.

Lemma Legacy_vec_add_added (key : HubResponseNode.t → list string)
    (val : HubResponseNode.t → PrimFloat.float) (ns : list HubResponseNode.t)
    (lvs : list string) :
  Legacy.vec_add key val ns ∅ !! lvs = Legacy.added key val ns lvs.
Proof.
  rewrite Legacy_vec_add_lookup. unfold Legacy.added.
  destruct (filter _ ns); [apply lookup_empty|by rewrite lookup_empty].
Qed.

(** X15. The earlier [fetch] does not look at the status of the response:
    whatever the status code, 503 as well as 200, a body that can be read
    and decodes is published as a successful scrape, with [up = 1] and the
    scalars of the decoded snapshot. *)
Theorem Legacy_publishes_any_status
    (resp : http.Response) (body : bytes) (h : hubResponse.t) (e : Exporter) :
  http.ReadAll resp = (body, None) →
  json_Unmarshal body hubResponse.zero = (h, None) →
  up (Legacy.refresh json_Unmarshal (Responds resp) e) = 1%float ∧
  grid_scalars (Legacy.refresh json_Unmarshal (Responds resp) e) = snapshot_scalars h.
Proof.
  intros Hread Hdec. rewrite Legacy_refresh_closed_form.
  unfold Legacy.outcome, Legacy.fetched; simpl. by rewrite Hread, Hdec.
Qed.

(** X16. In the earlier exporter a payload that does not decode leaves
    [up = 1]: the refresh reports a successful scrape while every grid
    scalar is 0 and every vector is empty. *)
Theorem Legacy_decode_error_reports_up
    (u : Upstream) (partial : hubResponse.t) (err : error) (e : Exporter) :
  Legacy.outcome json_Unmarshal u = DecodeError partial err →
  Legacy.metrics (Legacy.refresh json_Unmarshal u e) =
    (1%float, (0%float, 0%float, 0%float, 0%float, 0%float), ∅, (∅, ∅, ∅, ∅, ∅)).
Proof. intros Ho. by rewrite Legacy_refresh_closed_form, Ho. Qed.

(** X17. In the earlier exporter a refresh whose fetch fails publishes zeros:
    [up] and the five grid scalars are 0 and every vector, the grid version
    label set included, is empty, whatever was published before. *)
Theorem Legacy_fetch_error_zeroes_everything (u : Upstream) (err : error) (e : Exporter) :
  (Legacy.fetched u).2 = Some err →
  Legacy.metrics (Legacy.refresh json_Unmarshal u e) =
    (0%float, (0%float, 0%float, 0%float, 0%float, 0%float), ∅, (∅, ∅, ∅, ∅, ∅)).
Proof.
  intros Herr. rewrite Legacy_refresh_closed_form. unfold Legacy.outcome.
  destruct (Legacy.fetched u) as [body [err'|]]; [done|discriminate].
Qed.

(** X18. A refresh of the earlier exporter forgets what was published: the
    metrics it leaves are the same from any two states, so a refresh
    repeated with the same exchange changes nothing and no label of an
    earlier snapshot, the grid version included, outlives the next refresh;
    after a decoded snapshot the grid version label set is the single entry
    of that snapshot's version, at 1. *)
Theorem Legacy_refresh_forgets_state (u : Upstream) (e1 e2 : Exporter) :
  Legacy.metrics (Legacy.refresh json_Unmarshal u e1) =
    Legacy.metrics (Legacy.refresh json_Unmarshal u e2) ∧
  Legacy.refresh json_Unmarshal u (Legacy.refresh json_Unmarshal u e1) =
    Legacy.refresh json_Unmarshal u e1 ∧
  match Legacy.outcome json_Unmarshal u with
  | Snapshot h =>
      version (Legacy.refresh json_Unmarshal u e1)
        = {[ [hubResponse.Version (grid_of h)] := 1%float ]}
  | _ => version (Legacy.refresh json_Unmarshal u e1) = ∅
  end.
Proof.
  rewrite !Legacy_refresh_closed_form.
  by destruct (Legacy.outcome json_Unmarshal u).
Qed.

(** X19. The earlier exporter fills its vectors with [Add]: after a decoded
    snapshot each node counter holds the floating-point sum, from 0, of the
    values of all the nodes listed under its (id, uri) pair, and a status or
    version child counts how many times its tuple is listed. *)
Theorem Legacy_repeated_pair_adds_up
    (u : Upstream) (h : hubResponse.t) (e : Exporter) (lvs : list string) :
  Legacy.outcome json_Unmarshal u = Snapshot h →
  nodeMaxSession (Legacy.refresh json_Unmarshal u e) !! lvs
    = Legacy.added key2 HubResponseNode.MaxSession (nodes_of h) lvs ∧
  nodeSlotCount (Legacy.refresh json_Unmarshal u e) !! lvs
    = Legacy.added key2 HubResponseNode.SlotCount (nodes_of h) lvs ∧
  nodeSessionCount (Legacy.refresh json_Unmarshal u e) !! lvs
    = Legacy.added key2 HubResponseNode.SessionCount (nodes_of h) lvs ∧
  nodeStatus (Legacy.refresh json_Unmarshal u e) !! lvs
    = Legacy.added key_status (λ _, 1%float) (nodes_of h) lvs ∧
  nodeVersion (Legacy.refresh json_Unmarshal u e) !! lvs
    = Legacy.added key_version (λ _, 1%float) (nodes_of h) lvs.
Proof.
  intros Ho. rewrite Legacy_refresh_closed_form, Ho. simpl.
  by rewrite !Legacy_vec_add_added.
Qed.

(** *** The mutex *)














End LegacyProperties.

(** ** The earlier exporter at concrete inputs *)

(** X15 at the 503 response carrying the scenario's body. *)
Lemma X15_witness :
  up (Legacy.refresh fixture_Unmarshal (Responds response_503_with_body)
        (NewExporter grid_local)) = 1%float ∧
  grid_scalars (Legacy.refresh fixture_Unmarshal (Responds response_503_with_body)
                  (NewExporter grid_local)) = (72, 24, 0, 0, 1)%float.
Proof.
  apply (Legacy_publishes_any_status fixture_Unmarshal response_503_with_body
           body_4_1_0 payload_4_1_0 (NewExporter grid_local)).
  - reflexivity.
  - vm_compute. reflexivity.
Defined.

(** X16 at the body [not json], after the scenario's refresh. *)
Lemma X16_witness :
  Legacy.metrics (Legacy.refresh fixture_Unmarshal upstream_not_json exporter_at_4_1_0) =
    (1%float, (0%float, 0%float, 0%float, 0%float, 0%float), ∅, (∅, ∅, ∅, ∅, ∅)).
Proof.
  apply (Legacy_decode_error_reports_up fixture_Unmarshal upstream_not_json
           hubResponse.zero "invalid character" exporter_at_4_1_0).
  vm_compute. reflexivity.
Defined.

(** X17 at a refused connection, after the scenario's refresh. *)
Lemma X17_witness :
  Legacy.metrics (Legacy.refresh fixture_Unmarshal upstream_refused exporter_at_4_1_0) =
    (0%float, (0%float, 0%float, 0%float, 0%float, 0%float), ∅, (∅, ∅, ∅, ∅, ∅)).
Proof.
  apply (Legacy_fetch_error_zeroes_everything fixture_Unmarshal upstream_refused
           "connection refused" exporter_at_4_1_0).
  reflexivity.
Defined.

(** X19 at a snapshot listing node A twice: the counters of the pair are
    added up. *)
Lemma X19_witness :
  nodeMaxSession (Legacy.refresh nodes_Unmarshal upstream_AA (NewExporter grid_local))
    !! ["A"; "http://10.0.1.1:5555"] = Some 16%float ∧
  nodeSessionCount (Legacy.refresh nodes_Unmarshal upstream_AA (NewExporter grid_local))
    !! ["A"; "http://10.0.1.1:5555"] = Some 6%float.
Proof.
  destruct (Legacy_repeated_pair_adds_up nodes_Unmarshal upstream_AA
              (payload_of [node_A; node_A_draining]) (NewExporter grid_local)
              ["A"; "http://10.0.1.1:5555"])
    as (Hmax & _ & Hsessions & _).
  - vm_compute. reflexivity.
  - split; [rewrite Hmax|rewrite Hsessions]; vm_compute; reflexivity.
Defined.

